(** * The direct executor server, [src/direct-executor-server.js]

    A shallow embedding of the execution dispatch engine: the source
    classifier and the two executors ([executeCode], [executeDenoCode]),
    the search front end ([performCodeSearch]) and the request router
    ([callToolHandler]).

    Everything outside the file (the clock, [Math.random], the file
    system, [child_process.spawn], Node's [path] module and the vector
    indexer) is an oracle of the [World]; the program threads a small
    state through its calls and writes the effects it performs to a log. *)

From Stdlib Require Import ZArith NArith List Bool Lia String Ascii DecimalPos DecimalZ.
Import ListNotations.

Set Implicit Arguments.

(** ** JavaScript strings *)

Module JsStr.

(** A JavaScript string is a sequence of UTF-16 code units. *)
Definition code_unit := N.
Definition jsstring := list code_unit.

(** A string literal of the source (all the literals are ASCII). *)
Definition lit (s : string) : jsstring :=
  map N_of_ascii (list_ascii_of_string s).

(** [s.startsWith(m)]. *)
Fixpoint startsWith (s m : jsstring) : bool :=
  match m, s with
  | [], _ => true
  | _ :: _, [] => false
  | a :: m', b :: s' => N.eqb a b && startsWith s' m'
  end.

(** [s.includes(m)]: [m] occurs at some position of [s]. *)
Fixpoint includes (s m : jsstring) : bool :=
  startsWith s m ||
  match s with
  | [] => false
  | _ :: s' => includes s' m
  end.

(** The code units [String.prototype.trim] strips: WhiteSpace and
    LineTerminator of ECMA-262. *)
Definition is_space (c : code_unit) : bool :=
  ((9 <=? c) && (c <=? 13) || (c =? 32) || (c =? 160) || (c =? 5760)
   || (8192 <=? c) && (c <=? 8202)
   || (c =? 8232) || (c =? 8233) || (c =? 8239) || (c =? 8287)
   || (c =? 12288) || (c =? 65279))%N.

Fixpoint trimStart (s : jsstring) : jsstring :=
  match s with
  | c :: s' => if is_space c then trimStart s' else s
  | [] => []
  end.

Definition trimEnd (s : jsstring) : jsstring := rev (trimStart (rev s)).

(** [s.trim()]. *)
Definition trim (s : jsstring) : jsstring := trimEnd (trimStart s).

(** [s.split(sep)] for a separator of one code unit: never empty. *)
Fixpoint split (sep : code_unit) (s : jsstring) : list jsstring :=
  match s with
  | [] => [[]]
  | c :: s' =>
      if N.eqb c sep then [] :: split sep s'
      else match split sep s' with
           | x :: xs => (c :: x) :: xs
           | [] => [[c]]
           end
  end.

(** [xs.join(sep)]. *)
Fixpoint join (sep : jsstring) (xs : list jsstring) : jsstring :=
  match xs with
  | [] => []
  | [x] => x
  | x :: rest => x ++ sep ++ join sep rest
  end.

(** [s.substring(n)]. *)
Definition substring (n : nat) (s : jsstring) : jsstring := skipn n s.

(** [s.replace(/^\./, '')]: drops one leading dot. *)
Definition stripLeadingDot (s : jsstring) : jsstring :=
  match s with
  | c :: s' => if N.eqb c 46 then s' else s
  | [] => []
  end.

(** A string is truthy when it is not empty. *)
Definition nonEmpty (s : jsstring) : bool :=
  match s with [] => false | _ :: _ => true end.

(** Decimal digits of a number, most significant first. *)
Fixpoint digits (u : Decimal.uint) : jsstring :=
  match u with
  | Decimal.Nil => []
  | Decimal.D0 u => 48%N :: digits u
  | Decimal.D1 u => 49%N :: digits u
  | Decimal.D2 u => 50%N :: digits u
  | Decimal.D3 u => 51%N :: digits u
  | Decimal.D4 u => 52%N :: digits u
  | Decimal.D5 u => 53%N :: digits u
  | Decimal.D6 u => 54%N :: digits u
  | Decimal.D7 u => 55%N :: digits u
  | Decimal.D8 u => 56%N :: digits u
  | Decimal.D9 u => 57%N :: digits u
  end.

(** How a template literal prints an integer (the integers printed
    here, milliseconds and exit codes, are far below 1e21, where
    JavaScript switches to the exponent form). *)
Definition ofNumber (z : Z) : jsstring :=
  match Z.to_int z with
  | Decimal.Pos u => digits u
  | Decimal.Neg u => 45%N :: digits u
  end.

End JsStr.
Export JsStr.

Arguments lit s%_string.

(** ** The environment of the server *)

Module Env.

(** The [code] a child's ['close'] event carries: a number, or [null]
    when a signal ended the child (the spawn timeout sends one). *)
Inductive JsExit :=
| ExitNum (n : Z)
| ExitNull.

(** What a spawned child emits to the listeners the executors attach. *)
Inductive ChildEvent :=
| StdoutData (chunk : jsstring)
| StderrData (chunk : jsstring)
| Close (exit : JsExit)
| ProcError (message : jsstring).

(** [spawn] throws synchronously or hands back a child, given here by
    the events it will emit, in order. *)
Inductive SpawnOutcome :=
| SpawnThrows (message : jsstring)
| Spawned (events : list ChildEvent).

(** The options of a spawn that vary ([env] is always [process.env]). *)
Record SpawnOptions := { opt_cwd : jsstring; opt_timeout : Z }.

(** A result of the vector indexer, as [callToolHandler] reads it.
    Fields that the handler only prints hold their printed form. *)
Record Param := { param_name : jsstring; param_type : option jsstring }.

Record Structure := {
  st_parameters : option (list Param);
  st_returnType : option jsstring;
  st_parentClass : option jsstring;
  st_inheritsFrom : option jsstring;
  st_calls : option (list jsstring)
}.

Record Hit := {
  hit_score : jsstring;
  hit_file : jsstring;
  hit_startLine : jsstring;
  hit_endLine : jsstring;
  hit_type : jsstring;
  hit_qualifiedName : jsstring;
  hit_structure : option Structure;
  hit_doc : option jsstring;
  hit_lines : jsstring;
  hit_code : option jsstring
}.

(** The effects the server performs on its environment. *)
Inductive Effect :=
| MkdirSync (dir : jsstring)
| WriteFileSync (file data : jsstring)
| UnlinkSync (file : jsstring)
| Spawn (command : jsstring) (args : list jsstring) (opts : SpawnOptions)
| StdinWrite (data : jsstring)
| StdinEnd
| ImportIndexer
| SyncIndex (folders exts ignores : list jsstring)
| QueryIndex (query : jsstring) (topK : Z).

(** The oracles.  Each call reads its oracle at the current [tick] of
    the state, so that two calls of one primitive may answer
    differently; [Some message] is a thrown [Error] with that message. *)
Record World := {
  workingDir : jsstring;
  path_join : jsstring -> jsstring -> jsstring;
  path_resolve : jsstring -> jsstring;
  date_now : nat -> Z;
  math_random36 : nat -> jsstring;
  fs_existsSync : nat -> jsstring -> bool;
  fs_mkdirSync : nat -> jsstring -> option jsstring;
  fs_writeFileSync : nat -> jsstring -> jsstring -> option jsstring;
  fs_unlinkSync : nat -> jsstring -> option jsstring;
  child_spawn : nat -> jsstring -> list jsstring -> SpawnOptions -> SpawnOutcome;
  import_indexer : nat -> option jsstring;
  indexer_syncIndex :
    nat -> list jsstring -> list jsstring -> list jsstring -> option jsstring;
  indexer_queryIndex : nat -> jsstring -> Z -> list Hit + jsstring
}.

(** The state threaded through a request: the number of calls made to
    the environment so far and whether the module variable
    [vectorIndexer] is loaded. *)
Record Sys := { tick : nat; vectorIndexer : bool }.

Definition step (s : Sys) : Sys :=
  {| tick := S (tick s); vectorIndexer := vectorIndexer s |}.

(** How a computation ends: with a value, with a thrown error (a
    rejected promise, for an async function), or never, awaiting a
    promise that nothing settles. *)
Inductive Res (A : Type) :=
| Ok (a : A)
| Throw (message : jsstring)
| Pending.
Arguments Throw {A} message.
Arguments Pending {A}.

Definition M (A : Type) : Type := Sys -> Res A * Sys * list Effect.

Definition ret {A} (a : A) : M A := fun s => (Ok a, s, []).

Definition bind {A B} (m : M A) (k : A -> M B) : M B :=
  fun s =>
    match m s with
    | (Ok a, s1, l1) => let '(r, s2, l2) := k a s1 in (r, s2, l1 ++ l2)
    | (Throw e, s1, l1) => (Throw e, s1, l1)
    | (Pending, s1, l1) => (Pending, s1, l1)
    end.

Definition throw {A} (message : jsstring) : M A :=
  fun s => (Throw message, s, []).

(** [try { m } catch (err) { handler(err.message) }]. *)
Definition try_catch {A} (m : M A) (handler : jsstring -> M A) : M A :=
  fun s =>
    match m s with
    | (Throw e, s1, l1) => let '(r, s2, l2) := handler e s1 in (r, s2, l1 ++ l2)
    | other => other
    end.

(** [new Promise(executor)]: the executor runs at once; what it throws
    rejects the promise and does not reach the enclosing [try]. *)
Definition new_promise {A} (executor : M A) : M (Res A) :=
  fun s => let '(r, s1, l1) := executor s in (Ok r, s1, l1).

(** Adopting a promise: the async function ends the way it settles. *)
Definition await {A} (p : Res A) : M A := fun s => (p, s, []).

Definition result_of {A} (x : Res A * Sys * list Effect) : Res A := fst (fst x).
Definition effects_of {A} (x : Res A * Sys * list Effect) : list Effect := snd x.

Section Primitives.
Variable w : World.

(** [Date.now()]. *)
Definition now : M Z :=
  fun s => (Ok (date_now w (tick s)), step s, []).

(** [Math.random().toString(36)]. *)
Definition random36 : M jsstring :=
  fun s => (Ok (math_random36 w (tick s)), step s, []).

Definition existsSync (dir : jsstring) : M bool :=
  fun s => (Ok (fs_existsSync w (tick s) dir), step s, []).

Definition outcome (o : option jsstring) : Res unit :=
  match o with
  | None => Ok tt
  | Some e => Throw e
  end.

Definition mkdirSync (dir : jsstring) : M unit :=
  fun s => (outcome (fs_mkdirSync w (tick s) dir), step s, [MkdirSync dir]).

Definition writeFileSync (file data : jsstring) : M unit :=
  fun s => (outcome (fs_writeFileSync w (tick s) file data), step s,
            [WriteFileSync file data]).

Definition unlinkSync (file : jsstring) : M unit :=
  fun s => (outcome (fs_unlinkSync w (tick s) file), step s, [UnlinkSync file]).

Definition spawn (command : jsstring) (args : list jsstring)
           (opts : SpawnOptions) : M (list ChildEvent) :=
  fun s =>
    (match child_spawn w (tick s) command args opts with
     | SpawnThrows e => Throw e
     | Spawned events => Ok events
     end, step s, [Spawn command args opts]).

Definition stdinWrite (data : jsstring) : M unit :=
  fun s => (Ok tt, s, [StdinWrite data]).

Definition stdinEnd : M unit :=
  fun s => (Ok tt, s, [StdinEnd]).

(** [getVectorIndexer]: imports the indexer once and keeps it. *)
Definition getVectorIndexer : M unit :=
  fun s =>
    if vectorIndexer s then (Ok tt, s, [])
    else match import_indexer w (tick s) with
         | None => (Ok tt, {| tick := S (tick s); vectorIndexer := true |},
                    [ImportIndexer])
         | Some e => (Throw e, step s, [ImportIndexer])
         end.

Definition syncIndex (folders exts ignores : list jsstring) : M unit :=
  fun s => (outcome (indexer_syncIndex w (tick s) folders exts ignores),
            step s, [SyncIndex folders exts ignores]).

Definition queryIndex (query : jsstring) (topK : Z) : M (list Hit) :=
  fun s =>
    (match indexer_queryIndex w (tick s) query topK with
     | inl hits => Ok hits
     | inr e => Throw e
     end, step s, [QueryIndex query topK]).

End Primitives.

End Env.
Export Env.

Notation "x <- m ;; k" := (bind m (fun x => k))
  (at level 61, m at next level, right associativity).
Notation "m ;;; k" := (bind m (fun _ => k))
  (at level 61, right associativity).

(** ** The executors *)

Module Exec.

(** The object an executor resolves with.  A field the object literal
    does not mention is [None]. *)
Record ExecResult := {
  success : bool;
  stdout : option jsstring;
  stderr : option jsstring;
  executionTimeMs : option Z;
  code : option JsExit;
  error : option jsstring
}.

(** [code === 0]. *)
Definition isZero (exit : JsExit) : bool :=
  match exit with
  | ExitNum n => Z.eqb n 0
  | ExitNull => false
  end.

Definition cjsMarkers : list jsstring :=
  [ lit "require(";
    lit "module.exports";
    lit "__dirname";
    lit "__filename";
    lit "exports." ].

(** [cjsMarkers.some(marker => code.includes(marker))]. *)
Definition isCjs (code : jsstring) : bool :=
  existsb (fun marker => includes code marker) cjsMarkers.

(** The variables a promise executor closes over: the two accumulators
    and the state of the promise ([None] while it is pending). *)
Record Cell := {
  acc_stdout : jsstring;
  acc_stderr : jsstring;
  settled : option ExecResult
}.

Definition emptyCell : Cell :=
  {| acc_stdout := []; acc_stderr := []; settled := None |}.

(** [resolve(r)]: only the first call settles the promise. *)
Definition resolve (r : ExecResult) (c : Cell) : Cell :=
  match settled c with
  | Some _ => c
  | None => {| acc_stdout := acc_stdout c; acc_stderr := acc_stderr c;
               settled := Some r |}
  end.

Definition onStdout (data : jsstring) (c : Cell) : Cell :=
  {| acc_stdout := acc_stdout c ++ data; acc_stderr := acc_stderr c;
     settled := settled c |}.

Definition onStderr (data : jsstring) (c : Cell) : Cell :=
  {| acc_stdout := acc_stdout c; acc_stderr := acc_stderr c ++ data;
     settled := settled c |}.

Definition closed (c : Cell) (exit : JsExit) (ms : Z) : ExecResult :=
  {| success := isZero exit;
     stdout := Some (acc_stdout c);
     stderr := Some (acc_stderr c);
     executionTimeMs := Some ms;
     code := Some exit;
     error := None |}.

Definition failed (message : jsstring) (ms : option Z) : ExecResult :=
  {| success := false;
     stdout := None;
     stderr := None;
     executionTimeMs := ms;
     code := None;
     error := Some message |}.

(** The promise after the events: settled by a listener, or pending. *)
Definition settle (c : Cell) : M ExecResult :=
  fun s => (match settled c with Some r => Ok r | None => Pending end, s, []).

(** The events of a child reach the listeners one at a time.  What a
    listener throws goes to the silent ['uncaughtException'] handler of
    the process. *)
Fixpoint run_events (listener : ChildEvent -> Cell -> M Cell)
         (events : list ChildEvent) (c : Cell) : M Cell :=
  match events with
  | [] => ret c
  | ev :: rest =>
      c' <- try_catch (listener ev c) (fun _ => ret c) ;;
      run_events listener rest c'
  end.

Section Executors.
Variable w : World.

(** The listeners of the commonjs branch of [executeCode]. *)
Definition cjsListeners (startTime : Z) (tempFile : jsstring)
           (ev : ChildEvent) (c : Cell) : M Cell :=
  match ev with
  | StdoutData data => ret (onStdout data c)
  | StderrData data => ret (onStderr data c)
  | Close exit =>
      t <- now w ;;
      let executionTimeMs := (t - startTime)%Z in
      try_catch (unlinkSync w tempFile) (fun _ => ret tt) ;;;
      ret (resolve (closed c exit executionTimeMs) c)
  | ProcError message =>
      try_catch (unlinkSync w tempFile) (fun _ => ret tt) ;;;
      t <- now w ;;
      ret (resolve (failed message (Some (t - startTime)%Z)) c)
  end.

(** The listeners of the module branch of [executeCode]. *)
Definition esmListeners (startTime : Z)
           (ev : ChildEvent) (c : Cell) : M Cell :=
  match ev with
  | StdoutData data => ret (onStdout data c)
  | StderrData data => ret (onStderr data c)
  | Close exit =>
      t <- now w ;;
      let executionTimeMs := (t - startTime)%Z in
      ret (resolve (closed c exit executionTimeMs) c)
  | ProcError message =>
      t <- now w ;;
      ret (resolve (failed message (Some (t - startTime)%Z)) c)
  end.

(** The name of the temporary file:
    [`node-exec-${Date.now()}-${Math.random().toString(36).substring(2)}.cjs`]. *)
Definition tempFileName (t : Z) (r : jsstring) : jsstring :=
  lit "node-exec-" ++ ofNumber t ++ lit "-" ++ substring 2 r ++ lit ".cjs".

Definition spawnOptions (timeout : Z) : SpawnOptions :=
  {| opt_cwd := workingDir w; opt_timeout := timeout |}.

Definition executeCode (code : jsstring) (timeout : Z) : M ExecResult :=
  startTime <- now w ;;
  promise <-
    try_catch
      (if isCjs code then
         let tempDir := path_join w (workingDir w) (lit "temp") in
         present <- existsSync w tempDir ;;
         (if negb present then mkdirSync w tempDir else ret tt) ;;;
         t <- now w ;;
         r <- random36 w ;;
         let tempFile := path_join w tempDir (tempFileName t r) in
         writeFileSync w tempFile code ;;;
         new_promise
           (events <- spawn w (lit "node") [tempFile] (spawnOptions timeout) ;;
            c <- run_events (cjsListeners startTime tempFile) events emptyCell ;;
            settle c)
       else
         new_promise
           (events <- spawn w (lit "node") [lit "--input-type=module"]
                            (spawnOptions timeout) ;;
            stdinWrite code ;;;
            stdinEnd ;;;
            c <- run_events (esmListeners startTime) events emptyCell ;;
            settle c))
      (fun message => ret (Ok (failed message None))) ;;
  await promise.

(** The listeners of [executeDenoCode]. *)
Definition denoListeners (startTime : Z)
           (ev : ChildEvent) (c : Cell) : M Cell :=
  match ev with
  | StdoutData data => ret (onStdout data c)
  | StderrData data => ret (onStderr data c)
  | Close exit =>
      t <- now w ;;
      let executionTimeMs := (t - startTime)%Z in
      ret (resolve (closed c exit executionTimeMs) c)
  | ProcError message =>
      t <- now w ;;
      ret (resolve (failed message (Some (t - startTime)%Z)) c)
  end.

Definition denoArgs : list jsstring :=
  [lit "run"; lit "--allow-all"; lit "-"].

Definition executeDenoCode (code : jsstring) (timeout : Z) : M ExecResult :=
  startTime <- now w ;;
  promise <-
    try_catch
      (new_promise
         (events <- spawn w (lit "deno") denoArgs (spawnOptions timeout) ;;
          stdinWrite code ;;;
          stdinEnd ;;;
          c <- run_events (denoListeners startTime) events emptyCell ;;
          settle c))
      (fun message =>
         t <- now w ;;
         ret (Ok (failed message (Some (t - startTime)%Z)))) ;;
  await promise.

End Executors.

End Exec.
Export Exec.

(** ** Code search and the request router *)

Module Router.

(** The argument bag of a tool call, typed as the input schemas
    declare it; [None] is an argument that was not sent. *)
Record Args := {
  arg_code : option jsstring;
  arg_timeout : option Z;
  arg_query : option jsstring;
  arg_folders : option jsstring;
  arg_extensions : option jsstring;
  arg_ignores : option jsstring;
  arg_topK : option Z
}.

(** [{}]. *)
Definition noArgs : Args :=
  {| arg_code := None; arg_timeout := None; arg_query := None;
     arg_folders := None; arg_extensions := None; arg_ignores := None;
     arg_topK := None |}.

(** [request.params]. *)
Record Request := { name : jsstring; arguments : option Args }.

(** [{ type: 'text', text }]. *)
Inductive Segment := Text (text : jsstring).

Record Response := { content : list Segment }.

(** What [performCodeSearch] returns, by its [success] field. *)
Inductive SearchResult :=
| SearchDone (results : list Hit) (executionTimeMs : Z)
             (searchFolders searchExts searchIgnores : list jsstring)
| SearchFailed (error : jsstring) (executionTimeMs : Z).

(** Truthiness of an optional string: sent and not empty. *)
Definition given (o : option jsstring) : bool :=
  match o with
  | Some s => nonEmpty s
  | None => false
  end.

Definition str (o : option jsstring) : jsstring :=
  match o with
  | Some s => s
  | None => []
  end.

(** [a === b] on strings. *)
Fixpoint same (a b : jsstring) : bool :=
  match a, b with
  | [], [] => true
  | x :: a', y :: b' => N.eqb x y && same a' b'
  | _, _ => false
  end.

(** [topK || 8]. *)
Definition topKOr8 (topK : option Z) : Z :=
  match topK with
  | Some k => if Z.eqb k 0 then 8%Z else k
  | None => 8%Z
  end.

(** [result.code || 0]. *)
Definition codeOr0 (c : option JsExit) : Z :=
  match c with
  | Some (ExitNum n) => if Z.eqb n 0 then 0%Z else n
  | Some ExitNull => 0%Z
  | None => 0%Z
  end.

(** [`${result.executionTimeMs}`]. *)
Definition printMs (ms : option Z) : jsstring :=
  match ms with
  | Some t => ofNumber t
  | None => lit "undefined"
  end.

Definition comma : code_unit := 44%N.

(** The [outputLines] of an execution tool; [label] starts the
    summary, the one place where the two tools' copies differ. *)
Definition outputLines (label : jsstring) (result : ExecResult) : list Segment :=
  (if given (stdout result) then [Text (trim (str (stdout result)))] else [])
  ++ (if given (stderr result)
      then [Text (lit "ERROR: " ++ trim (str (stderr result)))] else [])
  ++ (if negb (success result) && given (error result)
      then [Text (lit "ERROR: " ++ str (error result))] else [])
  ++ [Text (label ++ printMs (executionTimeMs result)
            ++ lit "ms with exit code " ++ ofNumber (codeOr0 (code result)))].

(** One block of the search output. *)
Definition paramText (p : Param) : jsstring :=
  param_name p ++ (if given (param_type p) then lit ": " ++ str (param_type p) else []).

Definition structureOf (res : Hit) : Structure :=
  match hit_structure res with
  | Some st => st
  | None => {| st_parameters := None; st_returnType := None;
               st_parentClass := None; st_inheritsFrom := None;
               st_calls := None |}
  end.

Definition detailsOf (res : Hit) : list jsstring :=
  let st := structureOf res in
  (match st_parameters st with
   | Some (p :: ps) =>
       [lit "Parameters: " ++ join (lit ", ") (map paramText (p :: ps))]
   | _ => []
   end)
  ++ (if given (st_returnType st)
      then [lit "Return type: " ++ str (st_returnType st)] else [])
  ++ (if given (st_parentClass st)
      then [lit "Parent class: " ++ str (st_parentClass st)] else [])
  ++ (if given (st_inheritsFrom st)
      then [lit "Extends: " ++ str (st_inheritsFrom st)] else [])
  ++ (if given (hit_doc res) then [lit "Doc: " ++ str (hit_doc res)] else [])
  ++ (match st_calls st with
      | Some (c :: cs) => [lit "Calls: " ++ join (lit ", ") (c :: cs)]
      | _ => []
      end)
  ++ [lit "Lines: " ++ hit_lines res]
  ++ (if given (hit_code res)
      then [lit "Code snippet: " ++ str (hit_code res)] else []).

Definition newline : jsstring := [10%N].

Definition hitSegment (res : Hit) : Segment :=
  let title :=
    lit "[" ++ hit_score res ++ lit "] " ++ hit_file res ++ lit ":"
    ++ hit_startLine res ++ lit "-" ++ hit_endLine res ++ lit " - "
    ++ hit_type res ++ lit " " ++ hit_qualifiedName res in
  Text (title ++ newline ++ join newline (detailsOf res)).

Definition searchLines (query : jsstring) (result : SearchResult) : list Segment :=
  match result with
  | SearchDone results ms searchFolders searchExts searchIgnores =>
      [Text (lit "Code search for " ++ [34%N] ++ query ++ [34%N] ++ newline
             ++ lit "Searched in: " ++ join (lit ", ") searchFolders ++ newline
             ++ lit "Included extensions: " ++ join (lit ", ") searchExts ++ newline
             ++ lit "Ignored patterns: " ++ join (lit ", ") searchIgnores)]
      ++ (match results with
          | [] => [Text (lit "No results found.")]
          | _ :: _ =>
              Text (lit "Found " ++ ofNumber (Z.of_nat (List.length results))
                    ++ lit " result(s):")
              :: map hitSegment results
          end)
      ++ [Text (lit "Search completed in " ++ ofNumber ms ++ lit "ms")]
  | SearchFailed e _ => [Text (lit "ERROR: " ++ e)]
  end.

Section Handlers.
Variable w : World.

Definition searchFoldersOf (folders : option jsstring) : list jsstring :=
  if given folders
  then map (fun f => path_resolve w (trim f)) (split comma (str folders))
  else [workingDir w].

Definition searchExtsOf (extensions : option jsstring) : list jsstring :=
  if given extensions
  then map (fun e => stripLeadingDot (trim e)) (split comma (str extensions))
  else [lit "js"; lit "ts"].

Definition searchIgnoresOf (ignores : option jsstring) : list jsstring :=
  if given ignores
  then map (fun i => trim i) (split comma (str ignores))
  else [lit "node_modules"].

Definition performCodeSearch (query : jsstring)
           (folders extensions ignores : option jsstring)
           (topK : option Z) : M SearchResult :=
  startTime <- now w ;;
  try_catch
    (let searchFolders := searchFoldersOf folders in
     let searchExts := searchExtsOf extensions in
     let searchIgnores := searchIgnoresOf ignores in
     getVectorIndexer w ;;;
     syncIndex w searchFolders searchExts searchIgnores ;;;
     getVectorIndexer w ;;;
     results <- queryIndex w query (topKOr8 topK) ;;
     t <- now w ;;
     ret (SearchDone results (t - startTime)%Z
                     searchFolders searchExts searchIgnores))
    (fun message =>
       t <- now w ;;
       ret (SearchFailed message (t - startTime)%Z)).

Definition timeoutOf (args : Args) : Z :=
  match arg_timeout args with
  | Some t => t
  | None => 120000%Z
  end.

(** The body of the [try] of [callToolHandler]. *)
Definition dispatch (request : Request) : M Response :=
  let name := name request in
  let args := match arguments request with Some a => a | None => noArgs end in
  if same name (lit "executenodejs") || same name (lit "execute")
     || same name (lit "mcp_mcp_repl_execute")
  then
    let code := arg_code args in
    let timeout := timeoutOf args in
    if negb (given code)
    then throw (lit "Missing code argument for execute tool")
    else
      result <- executeCode w (str code) timeout ;;
      ret {| content := outputLines (lit "Execution completed in ") result |}
  else if same name (lit "executedeno")
          || same name (lit "mcp_mcp_repl_executedeno")
  then
    let code := arg_code args in
    let timeout := timeoutOf args in
    if negb (given code)
    then throw (lit "Missing code argument for Deno execute tool")
    else
      result <- executeDenoCode w (str code) timeout ;;
      ret {| content := outputLines (lit "Deno execution completed in ") result |}
  else if same name (lit "searchcode")
          || same name (lit "mcp_mcp_repl_searchcode")
  then
    let query := arg_query args in
    if negb (given query)
    then throw (lit "Missing query argument for code search tool")
    else
      result <- performCodeSearch (str query) (arg_folders args)
                  (arg_extensions args) (arg_ignores args) (arg_topK args) ;;
      ret {| content := searchLines (str query) result |}
  else throw (lit "Unknown tool: " ++ name).

Definition callToolHandler (request : Request) : M Response :=
  try_catch (dispatch request)
            (fun message => ret {| content := [Text (lit "ERROR: " ++ message)] |}).

End Handlers.

End Router.
Export Router.

(** ** Vocabulary of the properties *)

Module Props.

(** [m] occurs in [s] as a substring. *)
Definition occursIn (m s : jsstring) : Prop :=
  exists before after, s = before ++ m ++ after.

(** The text holds one of the five commonjs markers. *)
Definition hasMarker (code : jsstring) : Prop :=
  occursIn (lit "require(") code
  \/ occursIn (lit "module.exports") code
  \/ occursIn (lit "__dirname") code
  \/ occursIn (lit "__filename") code
  \/ occursIn (lit "exports.") code.

(** An effect of the temp-file strategy: on the file system, or a
    spawn of [node] on one file; nothing goes to a child's stdin. *)
Definition fileBased (e : Effect) : Prop :=
  match e with
  | MkdirSync _ | WriteFileSync _ _ | UnlinkSync _ => True
  | Spawn command args _ => command = lit "node" /\ exists file, args = [file]
  | _ => False
  end.

(** What a log looks like when the temp-file strategy ran: it opens
    with the scratch directory or the write of [code] to a file, all
    its effects are file based, and a spawn runs a file that [code] was
    written to. *)
Definition usesTempFile (w : World) (code : jsstring) (log : list Effect) : Prop :=
  (exists rest,
      log = MkdirSync (path_join w (workingDir w) (lit "temp")) :: rest
      \/ exists file, log = WriteFileSync file code :: rest)
  /\ (forall e, In e log -> fileBased e)
  /\ (forall command args opts,
         In (Spawn command args opts) log ->
         exists file, args = [file] /\ In (WriteFileSync file code) log).

(** What a log looks like when the stdin-pipe strategy ran: [node] is
    spawned in module mode and, when there is a child, [code] is
    written to its stdin, which is then closed. *)
Definition usesStdinPipe (w : World) (code : jsstring) (timeout : Z)
           (log : list Effect) : Prop :=
  let spawned :=
    Spawn (lit "node") [lit "--input-type=module"]
          {| opt_cwd := workingDir w; opt_timeout := timeout |} in
  log = [spawned] \/ log = [spawned; StdinWrite code; StdinEnd].

(** The number of terminal events (['close'] and ['error']) in a
    child's events. *)
Fixpoint terminals (events : list ChildEvent) : nat :=
  match events with
  | [] => 0
  | Close _ :: rest | ProcError _ :: rest => S (terminals rest)
  | _ :: rest => terminals rest
  end.

(** The number of deletions of [file] attempted in a log. *)
Fixpoint unlinksOf (file : jsstring) (log : list Effect) : nat :=
  match log with
  | [] => 0
  | UnlinkSync f :: rest =>
      if same f file then S (unlinksOf file rest) else unlinksOf file rest
  | _ :: rest => unlinksOf file rest
  end.

(** The world [w] with another outcome for every deletion. *)
Definition with_unlink (w : World) (u : nat -> jsstring -> option jsstring) : World :=
  {| workingDir := workingDir w;
     path_join := path_join w;
     path_resolve := path_resolve w;
     date_now := date_now w;
     math_random36 := math_random36 w;
     fs_existsSync := fs_existsSync w;
     fs_mkdirSync := fs_mkdirSync w;
     fs_writeFileSync := fs_writeFileSync w;
     fs_unlinkSync := u;
     child_spawn := child_spawn w;
     import_indexer := import_indexer w;
     indexer_syncIndex := indexer_syncIndex w;
     indexer_queryIndex := indexer_queryIndex w |}.

(** A result made by a listener from an event of the child: from a
    ['close'] with the accumulated output, or from an ['error'].  The
    time is a clock reading, taken at call [k] or later, less the
    start time. *)
Definition fromChild (w : World) (k0 : nat) (startTime : Z)
           (events : list ChildEvent) (r : ExecResult) : Prop :=
  (exists exit out err k,
      In (Close exit) events /\ (k0 <= k)%nat
      /\ r = {| success := isZero exit;
                stdout := Some out;
                stderr := Some err;
                executionTimeMs := Some (date_now w k - startTime)%Z;
                code := Some exit;
                error := None |})
  \/ (exists message k,
         In (ProcError message) events /\ (k0 <= k)%nat
         /\ r = {| success := false;
                   stdout := None;
                   stderr := None;
                   executionTimeMs := Some (date_now w k - startTime)%Z;
                   code := None;
                   error := Some message |}).

(** A spawn-level failure behind the message [m]: the log has a spawn
    whose child emitted an ['error'] with that message. *)
Definition childErrored (w : World) (log : list Effect) (m : jsstring) : Prop :=
  exists k command args opts events,
    In (Spawn command args opts) log
    /\ child_spawn w k command args opts = Spawned events
    /\ In (ProcError m) events.

(** A failure before any spawn behind the message [m]: nothing was
    spawned, and creating the scratch directory or writing the temp
    file threw [m]. *)
Definition prepareFailed (w : World) (log : list Effect) (m : jsstring) : Prop :=
  (forall command args opts, ~ In (Spawn command args opts) log)
  /\ exists k path,
      (In (MkdirSync path) log /\ fs_mkdirSync w k path = Some m)
      \/ (exists data, In (WriteFileSync path data) log
                       /\ fs_writeFileSync w k path data = Some m).

(** [success] is [true] exactly when the exit code is 0. *)
Definition successIsExitZero (run : Res ExecResult * Sys * list Effect) : Prop :=
  forall r, result_of run = Ok r ->
    (forall n, code r = Some (ExitNum n) -> success r = Z.eqb n 0)
    /\ (code r = Some ExitNull -> success r = false).

(** An error message comes only from a spawn-level failure, with
    [success] false and no exit code. *)
Definition errorOnlyFromSpawn (w : World)
           (run : Res ExecResult * Sys * list Effect) : Prop :=
  forall r m, result_of run = Ok r -> error r = Some m ->
    success r = false /\ code r = None /\ childErrored w (effects_of run) m.

(** An error message comes only from a spawn-level failure or from a
    failure before any spawn, with [success] false and no exit code. *)
Definition errorFromSpawnOrPrepare (w : World)
           (run : Res ExecResult * Sys * list Effect) : Prop :=
  forall r m, result_of run = Ok r -> error r = Some m ->
    success r = false /\ code r = None
    /\ (childErrored w (effects_of run) m \/ prepareFailed w (effects_of run) m).

(** A world for examples: a server in [/srv] whose file system and
    children are given. *)
Definition exampleWorld (writable : bool) (now : nat -> Z) (random : nat -> jsstring)
           (child : SpawnOutcome) : World :=
  {| workingDir := lit "/srv";
     path_join := fun a b => a ++ lit "/" ++ b;
     path_resolve := fun p => lit "/srv/" ++ p;
     date_now := now;
     math_random36 := random;
     fs_existsSync := fun _ _ => false;
     fs_mkdirSync := fun _ _ =>
       if writable then None
       else Some (lit "EACCES: permission denied, mkdir '/srv/temp'");
     fs_writeFileSync := fun _ _ _ =>
       if writable then None else Some (lit "EACCES: permission denied, open");
     fs_unlinkSync := fun _ _ => None;
     child_spawn := fun _ _ _ _ => child;
     import_indexer := fun _ => None;
     indexer_syncIndex := fun _ _ _ _ => None;
     indexer_queryIndex := fun _ _ _ => inl [] |}.

Definition ticking (n : nat) : Z := (1700000000000 + Z.of_nat n)%Z.

Definition freshSys : Sys := {| tick := 0; vectorIndexer := false |}.

(** The names the router answers to. *)
Definition nodeTools : list jsstring :=
  [lit "executenodejs"; lit "execute"; lit "mcp_mcp_repl_execute"].

Definition denoTools : list jsstring :=
  [lit "executedeno"; lit "mcp_mcp_repl_executedeno"].

Definition searchTools : list jsstring :=
  [lit "searchcode"; lit "mcp_mcp_repl_searchcode"].

Definition knownTools : list jsstring := nodeTools ++ denoTools ++ searchTools.

(** The argument bag of a request, [{}] when it has none. *)
Definition argsOf (request : Request) : Args :=
  match arguments request with
  | Some a => a
  | None => noArgs
  end.

(** The response that carries one error-prefixed text segment. *)
Definition errorResponse (message : jsstring) : Response :=
  {| content := [Text (lit "ERROR: " ++ message)] |}.

(** An argument bag with another [code], and with another [query]. *)
Definition withCode (c : option jsstring) (a : Args) : Args :=
  {| arg_code := c; arg_timeout := arg_timeout a; arg_query := arg_query a;
     arg_folders := arg_folders a; arg_extensions := arg_extensions a;
     arg_ignores := arg_ignores a; arg_topK := arg_topK a |}.

Definition withQuery (q : option jsstring) (a : Args) : Args :=
  {| arg_code := arg_code a; arg_timeout := arg_timeout a; arg_query := q;
     arg_folders := arg_folders a; arg_extensions := arg_extensions a;
     arg_ignores := arg_ignores a; arg_topK := arg_topK a |}.

(** The content of an execution tool's response as the specification
    words it: the trimmed stdout if stdout is not empty, then the
    error-prefixed trimmed stderr if stderr is not empty, then the
    error-prefixed error message if there is one, then the summary,
    which shows exit code 0 when the result has none. *)
Definition segmentIf (present : bool) (text : jsstring) : list Segment :=
  if present then [Text text] else [].

Definition shownExit (r : ExecResult) : Z :=
  match code r with
  | Some (ExitNum n) => n
  | _ => 0%Z
  end.

Definition renderedInOrder (label : jsstring) (r : ExecResult) : list Segment :=
  let out := str (stdout r) in
  let err := str (stderr r) in
  let message := str (error r) in
  segmentIf (nonEmpty out) (trim out)
  ++ segmentIf (nonEmpty err) (lit "ERROR: " ++ trim err)
  ++ segmentIf (nonEmpty message) (lit "ERROR: " ++ message)
  ++ [Text (label ++ printMs (executionTimeMs r) ++ lit "ms with exit code "
            ++ ofNumber (shownExit r))].

(** The files written in a log, in order. *)
Fixpoint tempFilesOf (log : list Effect) : list jsstring :=
  match log with
  | [] => []
  | WriteFileSync file _ :: rest => file :: tempFilesOf rest
  | _ :: rest => tempFilesOf rest
  end.

(** The log of the server answering several [executeCode] requests,
    each starting from the state the one before left.  A temp-file
    name is made of one clock reading and one random draw, so how the
    listeners of concurrent requests interleave has no part in it. *)
Fixpoint serveAll (w : World) (codes : list jsstring) (timeout : Z) (s : Sys)
  : list Effect :=
  match codes with
  | [] => []
  | code :: rest =>
      let '(_, s', log) := executeCode w code timeout s in
      log ++ serveAll w rest timeout s'
  end.

(** The temp files of commonjs requests never collide. *)
Definition tempFilesNeverCollide (w : World) (codes : list jsstring)
           (timeout : Z) (s : Sys) : Prop :=
  NoDup (tempFilesOf (serveAll w codes timeout s)).

(** The file a commonjs request names when it reads the clock at call
    [k] and draws its random number at the next call. *)
Definition tempFileAt (w : World) (k : nat) : jsstring :=
  path_join w (path_join w (workingDir w) (lit "temp"))
            (tempFileName (date_now w k) (math_random36 w (S k))).

(** The timestamp and the random component of that name. *)
Definition stampAt (w : World) (k : nat) : Z * jsstring :=
  (date_now w k, substring 2 (math_random36 w (S k))).

(** Two computations that behave alike from every state. *)
Definition alike {A} (m1 m2 : M A) : Prop := forall s, m1 s = m2 s.

(** The log of one listener call of the commonjs branch. *)
Definition cjsLog (file : jsstring) (ev : ChildEvent) : list Effect :=
  match ev with
  | Close _ | ProcError _ => [UnlinkSync file]
  | _ => []
  end.

(** What the listeners leave in the promise. *)
Definition settledFrom (w : World) (k0 : nat) (startTime : Z)
           (events : list ChildEvent) (c : Cell) (s : Sys) : Prop :=
  (k0 <= tick s)%nat
  /\ forall r, settled c = Some r -> fromChild w k0 startTime events r.

(** The promise as [await] sees it. *)
Definition awaited (c : Cell) : Res ExecResult :=
  match settled c with
  | Some r => Ok r
  | None => Pending
  end.

(** The commonjs branch of [executeCode] after the scratch directory:
    the name, the write, the spawn and the listeners. *)
Definition cjsFrom (w : World) (startTime : Z) (code : jsstring) (timeout : Z)
  : M (Res ExecResult) :=
  let tempDir := path_join w (workingDir w) (lit "temp") in
  t <- now w ;;
  r <- random36 w ;;
  let tempFile := path_join w tempDir (tempFileName t r) in
  writeFileSync w tempFile code ;;;
  new_promise
    (events <- spawn w (lit "node") [tempFile] (spawnOptions w timeout) ;;
     c <- run_events (cjsListeners w startTime tempFile) events emptyCell ;;
     settle c).

(** How the [catch] and the [await] of [executeCode] end a run of its
    [try] block that logged [pre] before it. *)
Definition finish (pre : list Effect) (x : Res (Res ExecResult) * Sys * list Effect)
  : Res ExecResult * Sys * list Effect :=
  match x with
  | (Ok p, s', l) => (p, s', pre ++ l)
  | (Throw e, s', l) => (Ok (failed e None), s', pre ++ l)
  | (Pending, s', l) => (Pending, s', pre ++ l)
  end.

(** The logs the commonjs branch can write. *)
Definition cjsLogShape (w : World) (code : jsstring) (timeout : Z)
           (log : list Effect) : Prop :=
  let tempDir := path_join w (workingDir w) (lit "temp") in
  log = [MkdirSync tempDir]
  \/ exists pre file,
      (pre = [] \/ pre = [MkdirSync tempDir])
      /\ (log = pre ++ [WriteFileSync file code]
          \/ exists n,
              log = pre ++ WriteFileSync file code
                        :: Spawn (lit "node") [file] (spawnOptions w timeout)
                        :: repeat (UnlinkSync file) n).

(** A result of the commonjs branch: made from an event of the child,
    or the early failure of the [catch], which carries no time. *)
Definition cjsResult (w : World) (code : jsstring) (timeout : Z) (s : Sys)
           (log : list Effect) (r : ExecResult) : Prop :=
  (exists k file events,
      In (Spawn (lit "node") [file] (spawnOptions w timeout)) log
      /\ child_spawn w k (lit "node") [file] (spawnOptions w timeout) = Spawned events
      /\ fromChild w (S (S (tick s))) (date_now w (tick s)) events r)
  \/ (exists m, r = failed m None /\ prepareFailed w log m).

(** The clock never runs backwards. *)
Definition monotone (clock : nat -> Z) : Prop :=
  forall i j, (i <= j)%nat -> (clock i <= clock j)%Z.

Definition minus : code_unit := 45%N.

End Props.
Export Props.

(** ** The tool list *)

Module Tools.

(** One entry of [properties] in an input schema. *)
Record Property := {
  prop_name : jsstring;
  prop_type : jsstring;
  prop_description : jsstring
}.

Record InputSchema := {
  schema_type : jsstring;
  properties : list Property;
  required : list jsstring
}.

Record Tool := {
  tool_name : jsstring;
  description : jsstring;
  inputSchema : InputSchema
}.

Definition executenodejsTool : Tool :=
  {| tool_name := lit "executenodejs";
     description :=
       join newline
          [lit "Execute JavaScript code directly with Node.js - supports ESM imports and all Node.js features. ";
           lit "";
           lit "DEBUGGING GUIDANCE:";
           lit "- Use this tool for all debugging and investigation tasks instead of external CLI tools";
           lit "- Break problems into testable hypotheses and verify them with code execution";
           lit "- Test APIs, data structures, and logic incrementally";
           lit "- Use console.log for debugging output and JSON.stringify for complex objects";
           lit "- Always prefer this over CLI tools like curl, wget, or external commands";
           lit "";
           lit "APPROACH:";
           lit "1. Form a hypothesis about what might be wrong";
           lit "2. Write focused test code to verify the hypothesis";
           lit "3. Execute and analyze results";
           lit "4. Refine hypothesis based on findings";
           lit "5. Iterate until problem is solved"];
     inputSchema :=
       {| schema_type := lit "object";
          properties :=
            [{| prop_name := lit "code"; prop_type := lit "string";
          prop_description :=
            lit "JavaScript code to execute - use for debugging, testing hypotheses, and investigation" |};
       {| prop_name := lit "timeout"; prop_type := lit "number";
          prop_description :=
            lit "Optional timeout in milliseconds (default: 120000)" |}];
          required := [lit "code"] |} |}.

Definition executedenoTool : Tool :=
  {| tool_name := lit "executedeno";
     description :=
       join newline
          [lit "Execute JavaScript/TypeScript code with Deno - supports ESM imports and all Deno features. ";
           lit "";
           lit "DEBUGGING GUIDANCE:";
           lit "- Use this tool for all debugging and investigation tasks instead of external CLI tools";
           lit "- Break problems into testable hypotheses and verify them with code execution";
           lit "- Test APIs, data structures, and logic incrementally";
           lit "- Use console.log for debugging output and JSON.stringify for complex objects";
           lit "- Always prefer this over CLI tools like curl, wget, or external commands";
           lit "- Great for TypeScript debugging and type checking";
           lit "";
           lit "APPROACH:";
           lit "1. Form a hypothesis about what might be wrong";
           lit "2. Write focused test code to verify the hypothesis";
           lit "3. Execute and analyze results";
           lit "4. Refine hypothesis based on findings";
           lit "5. Iterate until problem is solved";
           lit "";
           lit "WEB REQUESTS: Use fetch() instead of curl for HTTP requests"];
     inputSchema :=
       {| schema_type := lit "object";
          properties :=
            [{| prop_name := lit "code"; prop_type := lit "string";
          prop_description :=
            lit "JavaScript/TypeScript code to execute - use for debugging, testing hypotheses, and investigation" |};
       {| prop_name := lit "timeout"; prop_type := lit "number";
          prop_description :=
            lit "Optional timeout in milliseconds (default: 120000)" |}];
          required := [lit "code"] |} |}.

Definition searchcodeTool : Tool :=
  {| tool_name := lit "searchcode";
     description :=
       lit "Semantic code search with metadata extraction and AST-aware chunking";
     inputSchema :=
       {| schema_type := lit "object";
          properties :=
            [{| prop_name := lit "query"; prop_type := lit "string";
          prop_description :=
            lit "Semantic search query for code" |};
       {| prop_name := lit "folders"; prop_type := lit "string";
          prop_description :=
            lit "Optional comma-separated list of folders to search (defaults to working directory)" |};
       {| prop_name := lit "extensions"; prop_type := lit "string";
          prop_description :=
            lit "Optional comma-separated list of file extensions to include (default: js,ts)" |};
       {| prop_name := lit "ignores"; prop_type := lit "string";
          prop_description :=
            lit "Optional comma-separated list of patterns to ignore (default: node_modules)" |};
       {| prop_name := lit "topK"; prop_type := lit "number";
          prop_description :=
            lit "Optional number of results to return (default: 8)" |}];
          required := [lit "query"] |} |}.

(** [listToolsHandler]: the [tools] of its answer.  The line breaks of
    the descriptions are written with [join newline]. *)
Definition listToolsHandler : list Tool :=
  [executenodejsTool; executedenoTool; searchcodeTool].

End Tools.
Export Tools.

(** ** What a run decides, keeps and leaves alone *)

Module Runs.

Definition stateOf {A} (x : Res A * Sys * list Effect) : Sys := snd (fst x).

(** What the events of a child come to: the first ['close'] with the
    output gathered before it, the first ['error'], or nothing. *)
Inductive Verdict :=
| Exited (exit : JsExit) (out err : jsstring)
| Errored (message : jsstring)
| Hanging.

Fixpoint verdict (events : list ChildEvent) (out err : jsstring) : Verdict :=
  match events with
  | [] => Hanging
  | StdoutData d :: rest => verdict rest (out ++ d) err
  | StderrData d :: rest => verdict rest out (err ++ d)
  | Close exit :: _ => Exited exit out err
  | ProcError m :: _ => Errored m
  end.

(** The result of a child that closed. *)
Definition exited (exit : JsExit) (out err : jsstring) (ms : Z) : ExecResult :=
  {| success := isZero exit;
     stdout := Some out;
     stderr := Some err;
     executionTimeMs := Some ms;
     code := Some exit;
     error := None |}.

(** How the promise of an executor ends on a verdict, given the times
    the ['close'] and the ['error'] listener would measure. *)
Definition settlement (v : Verdict) (closeMs errorMs : Z) : Res ExecResult :=
  match v with
  | Exited exit out err => Ok (exited exit out err closeMs)
  | Errored m => Ok (failed m (Some errorMs))
  | Hanging => Pending
  end.

(** Every effect of every run of [m] satisfies [P]. *)
Definition confined {A} (P : Effect -> Prop) (m : M A) : Prop :=
  forall s e, In e (effects_of (m s)) -> P e.

(** From a state where the indexer is loaded, [m] keeps it loaded and
    does not import it again. *)
Definition warm {A} (m : M A) : Prop :=
  forall s, vectorIndexer s = true ->
    vectorIndexer (stateOf (m s)) = true /\ ~ In ImportIndexer (effects_of (m s)).

(** [m] leaves the module variable [vectorIndexer] as it was. *)
Definition keepsIndexer {A} (m : M A) : Prop :=
  forall s, vectorIndexer (stateOf (m s)) = vectorIndexer s.

(** The effects on the vector indexer, and all the others. *)
Definition indexerEffect (e : Effect) : Prop :=
  match e with
  | ImportIndexer | SyncIndex _ _ _ | QueryIndex _ _ => True
  | _ => False
  end.

Definition processEffect (e : Effect) : Prop :=
  match e with
  | ImportIndexer | SyncIndex _ _ _ | QueryIndex _ _ => False
  | _ => True
  end.

(** A spawn in the server's working directory with the given timeout;
    any effect that is no spawn passes. *)
Definition spawnsWith (w : World) (timeout : Z) (e : Effect) : Prop :=
  match e with
  | Spawn command _ opts =>
      (command = lit "node" \/ command = lit "deno")
      /\ opt_cwd opts = workingDir w /\ opt_timeout opts = timeout
  | _ => True
  end.

(** The server answering requests one after the other: the state it
    ends in and all it did. *)
Fixpoint serveRequests (w : World) (requests : list Request) (s : Sys)
  : Sys * list Effect :=
  match requests with
  | [] => (s, [])
  | request :: rest =>
      let '(_, s1, l1) := callToolHandler w request s in
      let '(s2, l2) := serveRequests w rest s1 in
      (s2, l1 ++ l2)
  end.

(** The argument of a bag that an input schema calls [key]. *)
Definition argNamed (key : jsstring) (args : Args) : option jsstring :=
  if same key (lit "code") then arg_code args
  else if same key (lit "query") then arg_query args
  else if same key (lit "folders") then arg_folders args
  else if same key (lit "extensions") then arg_extensions args
  else if same key (lit "ignores") then arg_ignores args
  else None.

(** The number of separators in a string; of commas. *)
Fixpoint commasOf (sep : code_unit) (s : jsstring) : nat :=
  match s with
  | [] => 0
  | c :: rest => if N.eqb c sep then S (commasOf sep rest) else commasOf sep rest
  end.

Definition commas (s : jsstring) : nat := commasOf comma s.

(** The call at which a commonjs request spawns its child: after the
    start time, the look at the scratch directory, its creation when it
    is missing, the clock, the random number and the write. *)
Definition cjsSpawnTick (w : World) (s : Sys) : nat :=
  if fs_existsSync w (S (tick s)) (path_join w (workingDir w) (lit "temp"))
  then (tick s + 5)%nat else (tick s + 6)%nat.

(** The file system takes every directory and every file. *)
Definition writable (w : World) : Prop :=
  (forall k dir, fs_mkdirSync w k dir = None)
  /\ (forall k file data, fs_writeFileSync w k file data = None).

(** How the handler ends a run of the function it awaited. *)
Definition answered {A} (render : A -> list Segment)
           (x : Res A * Sys * list Effect) : Res Response * Sys * list Effect :=
  match x with
  | (Ok r, s', l) => (Ok {| content := render r |}, s', l)
  | (Throw e, s', l) => (Ok (errorResponse e), s', l)
  | (Pending, s', l) => (Pending, s', l)
  end.

(** The message [m] was thrown by a step of a search: the import of
    the indexer, [syncIndex] or [queryIndex]. *)
Definition thrownBySearch (w : World) (query : jsstring)
           (folders extensions ignores : option jsstring) (topK : option Z)
           (m : jsstring) : Prop :=
  (exists t, import_indexer w t = Some m)
  \/ (exists t, indexer_syncIndex w t (searchFoldersOf w folders)
                                  (searchExtsOf extensions)
                                  (searchIgnoresOf ignores) = Some m)
  \/ (exists t, indexer_queryIndex w t query (topKOr8 topK) = inr m).

(** The indexer can be imported and synchronised. *)
Definition indexerReady (w : World) : Prop :=
  (forall t, import_indexer w t = None)
  /\ (forall t folders exts ignores, indexer_syncIndex w t folders exts ignores = None).

(** The output a child wrote to stdout, and to stderr, in its events. *)
Fixpoint stdoutOf (events : list ChildEvent) : jsstring :=
  match events with
  | [] => []
  | StdoutData d :: rest => d ++ stdoutOf rest
  | _ :: rest => stdoutOf rest
  end.

Fixpoint stderrOf (events : list ChildEvent) : jsstring :=
  match events with
  | [] => []
  | StderrData d :: rest => d ++ stderrOf rest
  | _ :: rest => stderrOf rest
  end.

(** The summary line of an execution tool. *)
Definition summaryOf (label : jsstring) (ms : Z) (exit : jsstring) : Segment :=
  Text (label ++ ofNumber ms ++ lit "ms with exit code " ++ exit).

(** The label that starts the summary of a tool. *)
Definition labelOf (toolName : jsstring) : jsstring :=
  if existsb (same toolName) denoTools
  then lit "Deno execution completed in "
  else lit "Execution completed in ".

(** Worlds, children and requests for examples. *)
Definition worldOf (child : SpawnOutcome) : World :=
  exampleWorld true ticking (fun _ => lit "0.k3j9") child.

Definition chatty : list ChildEvent :=
  [StdoutData (lit "a"); StderrData (lit "warn"); StdoutData (lit "b");
   Close (ExitNum 3); StdoutData (lit "late"); ProcError (lit "ignored")].

Definition missingBinary : list ChildEvent :=
  [StdoutData (lit "lost"); ProcError (lit "spawn deno ENOENT");
   Close (ExitNum (-2))].

Definition callOf (tool code : string) : Request :=
  {| name := lit tool; arguments := Some (withCode (Some (lit code)) noArgs) |}.

Definition searchOf (tool query : string) : Request :=
  {| name := lit tool; arguments := Some (withQuery (Some (lit query)) noArgs) |}.

Definition searchWorld (imported synced : option jsstring)
           (answer : list Hit + jsstring) : World :=
  {| workingDir := lit "/srv";
     path_join := fun a b => a ++ lit "/" ++ b;
     path_resolve := fun p => lit "/srv/" ++ p;
     date_now := ticking;
     math_random36 := fun _ => lit "0.k3j9";
     fs_existsSync := fun _ _ => true;
     fs_mkdirSync := fun _ _ => None;
     fs_writeFileSync := fun _ _ _ => None;
     fs_unlinkSync := fun _ _ => None;
     child_spawn := fun _ _ _ _ => Spawned [];
     import_indexer := fun _ => imported;
     indexer_syncIndex := fun _ _ _ _ => synced;
     indexer_queryIndex := fun _ _ _ => answer |}.

Definition plainHit (file : string) : Hit :=
  {| hit_score := lit "0.9"; hit_file := lit file;
     hit_startLine := lit "1"; hit_endLine := lit "4";
     hit_type := lit "function"; hit_qualifiedName := lit "parse";
     hit_structure := None; hit_doc := None;
     hit_lines := lit "4"; hit_code := None |}.

Definition warmSys : Sys := {| tick := 0; vectorIndexer := true |}.

(** A world whose [spawn] refuses a negative timeout by throwing at
    once, as the [spawn] of Node does, and otherwise hands back a child
    that closes with code 0. *)
Definition validatingWorld : World :=
  {| workingDir := lit "/srv";
     path_join := fun a b => a ++ lit "/" ++ b;
     path_resolve := fun p => lit "/srv/" ++ p;
     date_now := ticking;
     math_random36 := fun _ => lit "0.k3j9";
     fs_existsSync := fun _ _ => true;
     fs_mkdirSync := fun _ _ => None;
     fs_writeFileSync := fun _ _ _ => None;
     fs_unlinkSync := fun _ _ => None;
     child_spawn := fun _ _ _ opts =>
       if Z.ltb (opt_timeout opts) 0
       then SpawnThrows (lit "ERR_OUT_OF_RANGE: timeout must be an unsigned integer")
       else Spawned [Close (ExitNum 0)];
     import_indexer := fun _ => None;
     indexer_syncIndex := fun _ _ _ _ => None;
     indexer_queryIndex := fun _ _ _ => inl [] |}.

End Runs.
Export Runs.

(** ** Strings *)

Section StringFacts.

Lemma startsWith_app (m after : jsstring) : startsWith (m ++ after) m = true.
Proof.
  induction m as [|a m IH]; simpl.
  - destruct after; reflexivity.
  - now rewrite N.eqb_refl, IH.
Qed.

Lemma startsWith_inv (m s : jsstring) :
  startsWith s m = true -> exists after, s = m ++ after.
Proof.
  revert s; induction m as [|a m IH]; intros s H.
  - now exists s.
  - destruct s as [|b s]; simpl in H; [discriminate|].
    apply andb_true_iff in H as [Hab Hs].
    apply N.eqb_eq in Hab; subst b.
    destruct (IH _ Hs) as [after ->].
    now exists after.
Qed.

Lemma includes_occursIn (s m : jsstring) :
  includes s m = true <-> occursIn m s.
Proof.
  split.
  - induction s as [|c s IH]; cbn [includes]; intros H.
    + rewrite orb_false_r in H.
      destruct (startsWith_inv _ _ H) as [after E].
      exists [], after. exact E.
    + apply orb_true_iff in H as [H|H].
      * destruct (startsWith_inv _ _ H) as [after E].
        exists [], after. exact E.
      * destruct (IH H) as (before & after & ->).
        now exists (c :: before), after.
  - intros (before & after & ->).
    induction before as [|c before IH].
    + cbn [app]. destruct (m ++ after) eqn:E; cbn [includes];
        rewrite <- E, startsWith_app; reflexivity.
    + cbn [app includes]. rewrite IH. apply orb_true_r.
Qed.

Lemma isCjs_hasMarker (code : jsstring) :
  isCjs code = true <-> hasMarker code.
Proof.
  unfold isCjs, hasMarker, cjsMarkers. simpl existsb.
  rewrite !orb_true_iff, !includes_occursIn.
  intuition discriminate.
Qed.

Lemma same_eq (a b : jsstring) : same a b = true <-> a = b.
Proof.
  revert b; induction a as [|x a IH]; intros [|y b]; simpl;
    try (split; [discriminate|intros H; discriminate H]); [tauto|].
  rewrite andb_true_iff, N.eqb_eq, IH.
  split; [intros [-> ->]; reflexivity | intros H; injection H; auto].
Qed.

Lemma same_refl (a : jsstring) : same a a = true.
Proof. now apply same_eq. Qed.

Lemma same_neq (a b : jsstring) : a <> b -> same a b = false.
Proof.
  intros H. destruct (same a b) eqn:E; [|reflexivity].
  apply same_eq in E. contradiction.
Qed.

End StringFacts.

(** ** The monad and the event loop *)

Arguments lit : simpl never.
Arguments tempFileName : simpl never.
Arguments trim : simpl never.

Section MonadFacts.
Context {A B : Type}.

Lemma bind_alike (m1 m2 : M A) (k1 k2 : A -> M B) :
  alike m1 m2 -> (forall a, alike (k1 a) (k2 a)) -> alike (bind m1 k1) (bind m2 k2).
Proof.
  intros Hm Hk s. unfold bind. rewrite Hm.
  destruct (m2 s) as [[[a|e|] s1] l1]; try reflexivity.
  now rewrite Hk.
Qed.

Lemma try_catch_alike (m1 m2 : M A) (h1 h2 : jsstring -> M A) :
  alike m1 m2 -> (forall e, alike (h1 e) (h2 e)) ->
  alike (try_catch m1 h1) (try_catch m2 h2).
Proof.
  intros Hm Hh s. unfold try_catch. rewrite Hm.
  destruct (m2 s) as [[[a|e|] s1] l1]; try reflexivity.
  now rewrite Hh.
Qed.

Lemma new_promise_alike (m1 m2 : M A) :
  alike m1 m2 -> alike (new_promise m1) (new_promise m2).
Proof. intros Hm s. unfold new_promise. now rewrite Hm. Qed.

Lemma alike_refl (m : M A) : alike m m.
Proof. intros s. reflexivity. Qed.

(** A [catch] turns every throw of its [try] into the handler's end. *)
Lemma try_catch_never_throws (m : M A) (h : jsstring -> M A) s :
  (forall e s', forall e', result_of (h e s') <> Throw e') ->
  forall e', result_of (try_catch m h s) <> Throw e'.
Proof.
  intros Hh e'. unfold try_catch.
  destruct (m s) as [[[a|e|] s1] l1]; try discriminate.
  specialize (Hh e s1 e').
  destruct (h e s1) as [[r s2] l2]. exact Hh.
Qed.

End MonadFacts.

Section EventLoop.
Variable listener : ChildEvent -> Cell -> M Cell.

(** A loop whose listener always returns: it returns, its log is the
    listeners' logs in order, and an invariant of the steps holds at
    the end. *)
Lemma run_events_total (Q : Cell -> Sys -> Prop) (L : ChildEvent -> list Effect)
      (events : list ChildEvent) :
  (forall ev c s, In ev events -> Q c s ->
     exists c' s', listener ev c s = (Ok c', s', L ev) /\ Q c' s') ->
  forall c s, Q c s ->
    exists c' s', run_events listener events c s = (Ok c', s', flat_map L events)
                  /\ Q c' s'.
Proof.
  induction events as [|ev rest IH]; intros Hstep c s Hq.
  - exists c, s. split; [reflexivity | exact Hq].
  - destruct (Hstep ev c s (or_introl eq_refl) Hq) as (c1 & s1 & E1 & Hq1).
    destruct (IH (fun ev' c' s' Hin => Hstep ev' c' s' (or_intror Hin)) c1 s1 Hq1)
      as (c2 & s2 & E2 & Hq2).
    exists c2, s2. split; [|exact Hq2].
    cbn [run_events flat_map]. unfold bind, try_catch.
    rewrite E1, E2. reflexivity.
Qed.

Lemma run_events_alike (listener' : ChildEvent -> Cell -> M Cell) :
  (forall ev c, alike (listener ev c) (listener' ev c)) ->
  forall events c, alike (run_events listener events c) (run_events listener' events c).
Proof.
  intros H events. induction events as [|ev rest IH]; intros c.
  - apply alike_refl.
  - cbn [run_events]. apply bind_alike.
    + apply try_catch_alike; [apply H | intros e; apply alike_refl].
    + intros c'. apply IH.
Qed.

End EventLoop.

Section Listeners.
Variable w : World.

(** A deletion inside its [try]/[catch] ends the same way whether the
    file system deleted the file or threw. *)
Lemma unlink_swallowed (file : jsstring) (s : Sys) :
  try_catch (unlinkSync w file) (fun _ => ret tt) s = (Ok tt, step s, [UnlinkSync file]).
Proof.
  unfold try_catch, unlinkSync, outcome.
  destruct (fs_unlinkSync w (tick s) file); reflexivity.
Qed.

Lemma flat_map_cjsLog file events :
  flat_map (cjsLog file) events = repeat (UnlinkSync file) (terminals events).
Proof.
  induction events as [|[d|d|exit|m] rest IH]; cbn [flat_map cjsLog terminals app repeat];
    now rewrite ?IH.
Qed.

Lemma flat_map_nil {X Y} (xs : list X) : flat_map (fun _ => @nil Y) xs = [].
Proof. induction xs; auto. Qed.

End Listeners.

Section ExecutorShapes.
Variable w : World.

Lemma resolve_settled r c :
  settled (resolve r c) = match settled c with Some r' => Some r' | None => Some r end.
Proof. unfold resolve. destruct (settled c) eqn:E; [exact E | reflexivity]. Qed.

Lemma settledFrom_resolve k0 st events c s s' r :
  settledFrom w k0 st events c s -> (tick s <= tick s')%nat ->
  fromChild w k0 st events r ->
  settledFrom w k0 st events (resolve r c) s'.
Proof.
  intros [Hk Hc] Hs Hr. split; [lia|].
  intros r'. rewrite resolve_settled.
  destruct (settled c) as [r0|] eqn:E.
  - intros [= <-]. now apply Hc.
  - intros [= <-]. exact Hr.
Qed.

Lemma pipeListeners_step k0 st events ev c s :
  In ev events -> settledFrom w k0 st events c s ->
  exists c' s',
    esmListeners w st ev c s = (Ok c', s', (fun _ => []) ev)
    /\ settledFrom w k0 st events c' s'.
Proof.
  intros Hin HQ. destruct ev as [d|d|exit|m]; cbn [esmListeners].
  - exists (onStdout d c), s. split; [reflexivity | exact HQ].
  - exists (onStderr d c), s. split; [reflexivity | exact HQ].
  - eexists _, _. split; [reflexivity|].
    apply settledFrom_resolve with (s := s); [exact HQ | cbn; lia |].
    left. exists exit, (acc_stdout c), (acc_stderr c), (tick s).
    destruct HQ as [Hk _]. repeat split; auto.
  - eexists _, _. split; [reflexivity|].
    apply settledFrom_resolve with (s := s); [exact HQ | cbn; lia |].
    right. exists m, (tick s).
    destruct HQ as [Hk _]. repeat split; auto.
Qed.

Lemma cjsListeners_step k0 st file events ev c s :
  In ev events -> settledFrom w k0 st events c s ->
  exists c' s',
    cjsListeners w st file ev c s = (Ok c', s', cjsLog file ev)
    /\ settledFrom w k0 st events c' s'.
Proof.
  intros Hin HQ. destruct ev as [d|d|exit|m]; cbn [cjsListeners cjsLog].
  - exists (onStdout d c), s. split; [reflexivity | exact HQ].
  - exists (onStderr d c), s. split; [reflexivity | exact HQ].
  - unfold bind at 1. cbn [now]. unfold bind at 1.
    rewrite unlink_swallowed. cbn.
    eexists _, _. split; [reflexivity|].
    apply settledFrom_resolve with (s := s); [exact HQ | cbn; lia |].
    left. exists exit, (acc_stdout c), (acc_stderr c), (tick s).
    destruct HQ as [Hk _]. repeat split; auto.
  - unfold bind at 1. rewrite unlink_swallowed.
    unfold bind at 1. cbn.
    eexists _, _. split; [reflexivity|].
    apply settledFrom_resolve with (s := s); [exact HQ | cbn; lia |].
    right. exists m, (S (tick s)).
    destruct HQ as [Hk _]. repeat split; auto.
Qed.

Lemma settledFrom_empty k0 st events s :
  (k0 <= tick s)%nat -> settledFrom w k0 st events emptyCell s.
Proof. intros H. split; [exact H | discriminate]. Qed.

(** [executeDenoCode], by what [spawn] does. *)
Lemma executeDenoCode_shape code timeout s :
  let st := date_now w (tick s) in
  let sp := Spawn (lit "deno") denoArgs (spawnOptions w timeout) in
  match child_spawn w (S (tick s)) (lit "deno") denoArgs (spawnOptions w timeout) with
  | SpawnThrows e =>
      executeDenoCode w code timeout s = (Throw e, step (step s), [sp])
  | Spawned events =>
      exists c' s',
        settledFrom w (S (S (tick s))) st events c' s'
        /\ executeDenoCode w code timeout s
           = (awaited c', s', [sp; StdinWrite code; StdinEnd])
  end.
Proof.
  intros st sp.
  destruct (child_spawn w (S (tick s)) (lit "deno") denoArgs (spawnOptions w timeout))
    as [e|events] eqn:E.
  - unfold executeDenoCode, bind, try_catch, new_promise, await, now, spawn.
    cbn. rewrite E. reflexivity.
  - destruct (run_events_total (esmListeners w st)
                (settledFrom w (S (S (tick s))) st events) (fun _ => [])
                events (fun ev c s0 => @pipeListeners_step _ st events ev c s0)
                emptyCell (step (step s)))
      as (c' & s' & Erun & HQ).
    { apply settledFrom_empty. cbn. lia. }
    exists c', s'. split; [exact HQ|].
    unfold executeDenoCode, bind, try_catch, new_promise, await, now, spawn.
    cbn. rewrite E. cbn.
    change (denoListeners w (date_now w (tick s))) with (esmListeners w st).
    change {| tick := S (S (tick s)); vectorIndexer := vectorIndexer s |}
      with (step (step s)).
    rewrite Erun. rewrite flat_map_nil. reflexivity.
Qed.

(** The module branch of [executeCode], by what [spawn] does. *)
Lemma executeCode_module_shape code timeout s :
  isCjs code = false ->
  let st := date_now w (tick s) in
  let sp := Spawn (lit "node") [lit "--input-type=module"] (spawnOptions w timeout) in
  match child_spawn w (S (tick s)) (lit "node") [lit "--input-type=module"]
                    (spawnOptions w timeout) with
  | SpawnThrows e =>
      executeCode w code timeout s = (Throw e, step (step s), [sp])
  | Spawned events =>
      exists c' s',
        settledFrom w (S (S (tick s))) st events c' s'
        /\ executeCode w code timeout s
           = (awaited c', s', [sp; StdinWrite code; StdinEnd])
  end.
Proof.
  intros Hcjs st sp.
  destruct (child_spawn w (S (tick s)) (lit "node") [lit "--input-type=module"]
                        (spawnOptions w timeout)) as [e|events] eqn:E.
  - unfold executeCode, bind, try_catch, new_promise, await, now, spawn.
    rewrite Hcjs. cbn. rewrite E. reflexivity.
  - destruct (run_events_total (esmListeners w st)
                (settledFrom w (S (S (tick s))) st events) (fun _ => [])
                events (fun ev c s0 => @pipeListeners_step _ st events ev c s0)
                emptyCell (step (step s)))
      as (c' & s' & Erun & HQ).
    { apply settledFrom_empty. cbn. lia. }
    exists c', s'. split; [exact HQ|].
    unfold executeCode, bind, try_catch, new_promise, await, now, spawn.
    rewrite Hcjs. cbn. rewrite E. cbn.
    change {| tick := S (S (tick s)); vectorIndexer := vectorIndexer s |}
      with (step (step s)).
    fold st. rewrite Erun. rewrite flat_map_nil. reflexivity.
Qed.

Lemma cjsFrom_shape st code timeout s :
  let k := tick s in
  let file := tempFileAt w k in
  let wr := WriteFileSync file code in
  let sp := Spawn (lit "node") [file] (spawnOptions w timeout) in
  match fs_writeFileSync w (S (S k)) file code with
  | Some e =>
      cjsFrom w st code timeout s = (Throw e, step (step (step s)), [wr])
  | None =>
      match child_spawn w (S (S (S k))) (lit "node") [file] (spawnOptions w timeout) with
      | SpawnThrows e =>
          cjsFrom w st code timeout s
          = (Ok (Throw e), step (step (step (step s))), [wr; sp])
      | Spawned events =>
          exists c' s',
            settledFrom w (S (S (S (S k)))) st events c' s'
            /\ cjsFrom w st code timeout s
               = (Ok (awaited c'), s',
                  wr :: sp :: repeat (UnlinkSync file) (terminals events))
      end
  end.
Proof.
  intros k file wr sp.
  destruct (fs_writeFileSync w (S (S k)) file code) as [e|] eqn:Ew.
  - unfold cjsFrom, bind, new_promise, now, random36, writeFileSync, spawn.
    cbn. fold k. fold (tempFileAt w k). fold file. rewrite Ew. reflexivity.
  - destruct (child_spawn w (S (S (S k))) (lit "node") [file] (spawnOptions w timeout))
      as [e|events] eqn:Es.
    + unfold cjsFrom, bind, new_promise, now, random36, writeFileSync, spawn.
      cbn. fold k. fold (tempFileAt w k). fold file. rewrite Ew. cbn.
      rewrite Es. reflexivity.
    + destruct (run_events_total (cjsListeners w st file)
                  (settledFrom w (S (S (S (S k)))) st events) (cjsLog file)
                  events (fun ev c s0 => @cjsListeners_step _ st file events ev c s0)
                  emptyCell (step (step (step (step s)))))
        as (c' & s' & Erun & HQ).
      { apply settledFrom_empty. cbn. lia. }
      exists c', s'. split; [exact HQ|].
      unfold cjsFrom, bind, new_promise, now, random36, writeFileSync, spawn.
      cbn. fold k. fold (tempFileAt w k). fold file. rewrite Ew. cbn.
      rewrite Es. cbn.
      change {| tick := S (S (S (S k))); vectorIndexer := vectorIndexer s |}
        with (step (step (step (step s)))).
      rewrite Erun. rewrite flat_map_cjsLog, app_nil_r. reflexivity.
Qed.

Lemma prepare_then (X : Z -> M (Res ExecResult)) s :
  let st := date_now w (tick s) in
  let tempDir := path_join w (workingDir w) (lit "temp") in
  (startTime <- now w ;;
   promise <-
     try_catch
       (present <- existsSync w tempDir ;;
        (if negb present then mkdirSync w tempDir else ret tt) ;;;
        X startTime)
       (fun message => ret (Ok (failed message None))) ;;
   await promise) s =
  if fs_existsSync w (S (tick s)) tempDir
  then finish [] (X st (step (step s)))
  else match fs_mkdirSync w (S (S (tick s))) tempDir with
       | Some e => (Ok (failed e None), step (step (step s)), [MkdirSync tempDir])
       | None => finish [MkdirSync tempDir] (X st (step (step (step s))))
       end.
Proof.
  intros st tempDir.
  unfold bind, try_catch, await, now, existsSync, mkdirSync, ret. cbn.
  fold st.
  change {| tick := S (S (tick s)); vectorIndexer := vectorIndexer s |}
    with (step (step s)).
  destruct (fs_existsSync w (S (tick s)) tempDir) eqn:Ex; cbn.
  - destruct (X st (step (step s))) as [[[p|e|] s'] l];
      cbn; rewrite ?app_nil_r; reflexivity.
  - change {| tick := S (S (S (tick s))); vectorIndexer := vectorIndexer s |}
      with (step (step (step s))).
    destruct (fs_mkdirSync w (S (S (tick s))) tempDir) as [e|] eqn:Em; cbn.
    + reflexivity.
    + destruct (X st (step (step (step s)))) as [[[p|e|] s'] l];
        cbn; rewrite ?app_nil_r; reflexivity.
Qed.

Lemma executeCode_commonjs_unfold code timeout s :
  isCjs code = true ->
  let st := date_now w (tick s) in
  let tempDir := path_join w (workingDir w) (lit "temp") in
  executeCode w code timeout s =
  if fs_existsSync w (S (tick s)) tempDir
  then finish [] (cjsFrom w st code timeout (step (step s)))
  else match fs_mkdirSync w (S (S (tick s))) tempDir with
       | Some e => (Ok (failed e None), step (step (step s)), [MkdirSync tempDir])
       | None => finish [MkdirSync tempDir] (cjsFrom w st code timeout (step (step (step s))))
       end.
Proof.
  intros Hcjs st tempDir.
  unfold executeCode. rewrite Hcjs.
  exact (prepare_then (fun startTime => cjsFrom w startTime code timeout) s).
Qed.

End ExecutorShapes.

(** ** The source classifier *)

Section Classifier.
Variable w : World.

Lemma cjsFrom_log st code timeout s pre :
  pre = [] \/ pre = [MkdirSync (path_join w (workingDir w) (lit "temp"))] ->
  cjsLogShape w code timeout (effects_of (finish pre (cjsFrom w st code timeout s))).
Proof.
  intros Hpre. right. exists pre, (tempFileAt w (tick s)). split; [exact Hpre|].
  pose proof (cjsFrom_shape w st code timeout s) as H. cbv zeta in H.
  destruct (fs_writeFileSync w (S (S (tick s))) (tempFileAt w (tick s)) code).
  - rewrite H. left. reflexivity.
  - destruct (child_spawn w (S (S (S (tick s)))) (lit "node")
                          [tempFileAt w (tick s)] (spawnOptions w timeout)).
    + rewrite H. right. exists 0%nat. reflexivity.
    + destruct H as (c' & s' & _ & ->). right.
      exists (terminals events).
      unfold finish, awaited. destruct (settled c'); reflexivity.
Qed.

Lemma executeCode_commonjs_log code timeout s :
  isCjs code = true ->
  cjsLogShape w code timeout (effects_of (executeCode w code timeout s)).
Proof.
  intros Hcjs. rewrite (executeCode_commonjs_unfold w code timeout s Hcjs).
  cbv zeta.
  destruct (fs_existsSync w (S (tick s)) (path_join w (workingDir w) (lit "temp"))).
  - apply cjsFrom_log. now left.
  - destruct (fs_mkdirSync w (S (S (tick s))) (path_join w (workingDir w) (lit "temp"))).
    + left. reflexivity.
    + apply cjsFrom_log. now right.
Qed.

Lemma cjsLogShape_usesTempFile code timeout log :
  cjsLogShape w code timeout log -> usesTempFile w code log.
Proof.
  intros [->|(pre & file & Hpre & Hlog)].
  - repeat split.
    + eexists. left. reflexivity.
    + intros e [<-|[]]. exact I.
    + intros c a o [H|[]]. discriminate H.
  - assert (Hin : forall e, In e log ->
              e = MkdirSync (path_join w (workingDir w) (lit "temp"))
              \/ e = WriteFileSync file code
              \/ e = Spawn (lit "node") [file] (spawnOptions w timeout)
              \/ e = UnlinkSync file).
    { intros e He.
      destruct Hlog as [->|(n & ->)]; apply in_app_or in He as [He|He].
      - destruct Hpre as [->| ->]; [destruct He|].
        destruct He as [<-|[]]. now left.
      - destruct He as [<-|[]]. right. now left.
      - destruct Hpre as [->| ->]; [destruct He|].
        destruct He as [<-|[]]. now left.
      - destruct He as [<-|[<-|He]]; [right; now left | right; right; now left |].
        apply repeat_spec in He. now right; right; right. }
    assert (Hw : In (WriteFileSync file code) log).
    { destruct Hlog as [->|(n & ->)]; apply in_or_app; right; now left. }
    repeat split.
    + destruct Hpre as [->| ->].
      * destruct Hlog as [->|(n & ->)]; eexists; right; exists file; reflexivity.
      * destruct Hlog as [->|(n & ->)]; eexists; left; reflexivity.
    + intros e He.
      destruct (Hin e He) as [->|[->|[->| ->]]]; cbn; auto.
      split; [reflexivity | now exists file].
    + intros c a o He.
      destruct (Hin _ He) as [H|[H|[H|H]]]; try discriminate H.
      injection H as -> -> ->. now exists file.
Qed.

Lemma executeCode_module_log code timeout s :
  isCjs code = false ->
  usesStdinPipe w code timeout (effects_of (executeCode w code timeout s)).
Proof.
  intros Hcjs.
  pose proof (executeCode_module_shape w code timeout s Hcjs) as H. cbv zeta in H.
  destruct (child_spawn w (S (tick s)) (lit "node") [lit "--input-type=module"]
                        (spawnOptions w timeout)).
  - rewrite H. left. reflexivity.
  - destruct H as (c' & s' & _ & ->). right. reflexivity.
Qed.

Lemma strategies_exclusive code timeout log :
  usesTempFile w code log -> usesStdinPipe w code timeout log -> False.
Proof.
  intros [[rest [H|[file H]]] _] [E|E]; rewrite E in H; discriminate H.
Qed.

(** C1.  For every source text, [executeCode] takes the temp-file
    (commonjs) strategy if and only if the text holds one of the five
    markers [require(], [module.exports], [__dirname], [__filename],
    [exports.] as a substring, wherever it stands; otherwise it takes
    the stdin-pipe (module) strategy. *)
Theorem classifier_selects_strategy (code : jsstring) (timeout : Z) (s : Sys) :
  let log := effects_of (executeCode w code timeout s) in
  (hasMarker code <-> usesTempFile w code log)
  /\ (~ hasMarker code <-> usesStdinPipe w code timeout log).
Proof.
  intros log. subst log.
  destruct (isCjs code) eqn:Hcjs.
  - assert (Hm : hasMarker code) by now apply isCjs_hasMarker.
    assert (Ht := cjsLogShape_usesTempFile (executeCode_commonjs_log code timeout s Hcjs)).
    split; split; intros H; auto.
    + contradiction.
    + exfalso. eapply strategies_exclusive; eassumption.
  - assert (Hm : ~ hasMarker code).
    { intros Hm. apply isCjs_hasMarker in Hm. congruence. }
    assert (Hp := executeCode_module_log code timeout s Hcjs).
    split; split; intros H; auto.
    + contradiction.
    + exfalso. eapply strategies_exclusive; eassumption.
Qed.

End Classifier.

(** ** The result envelope *)

Section Envelope.
Variable w : World.

Lemma fromChild_exit k0 st events r :
  fromChild w k0 st events r ->
  (forall n, code r = Some (ExitNum n) -> success r = Z.eqb n 0)
  /\ (code r = Some ExitNull -> success r = false).
Proof.
  intros [(exit & out & err & k & _ & _ & ->)|(m & k & _ & _ & ->)]; cbn.
  - split; [intros n [= ->] | intros [= ->]]; reflexivity.
  - split; [intros n H | intros H]; discriminate H.
Qed.

Lemma fromChild_error k0 st events r m :
  fromChild w k0 st events r -> error r = Some m ->
  success r = false /\ code r = None /\ In (ProcError m) events.
Proof.
  intros [(exit & out & err & k & _ & _ & ->)|(m' & k & Hin & _ & ->)]; cbn.
  - discriminate.
  - intros [= <-]. auto.
Qed.

Lemma fromChild_time k0 st events r :
  fromChild w k0 st events r ->
  exists k, (k0 <= k)%nat /\ executionTimeMs r = Some (date_now w k - st)%Z.
Proof.
  intros [(exit & out & err & k & _ & Hk & ->)|(m' & k & _ & Hk & ->)];
    exists k; cbn; auto.
Qed.

Lemma awaited_ok c r : awaited c = Ok r -> settled c = Some r.
Proof. unfold awaited. destruct (settled c); [intros [= ->]; reflexivity | discriminate]. Qed.

(** Every result of [executeDenoCode] was made by a listener from an
    event of the child it spawned. *)
Lemma executeDenoCode_result code timeout s r :
  result_of (executeDenoCode w code timeout s) = Ok r ->
  exists events,
    child_spawn w (S (tick s)) (lit "deno") denoArgs (spawnOptions w timeout)
    = Spawned events
    /\ fromChild w (S (S (tick s))) (date_now w (tick s)) events r
    /\ effects_of (executeDenoCode w code timeout s)
       = [Spawn (lit "deno") denoArgs (spawnOptions w timeout);
          StdinWrite code; StdinEnd].
Proof.
  pose proof (executeDenoCode_shape w code timeout s) as H. cbv zeta in H.
  destruct (child_spawn w (S (tick s)) (lit "deno") denoArgs (spawnOptions w timeout))
    as [e|events].
  - rewrite H. discriminate.
  - destruct H as (c' & s' & [_ HQ] & ->). cbn. intros Hr.
    exists events. repeat split. apply HQ. now apply awaited_ok.
Qed.

Lemma executeCode_module_result code timeout s r :
  isCjs code = false ->
  result_of (executeCode w code timeout s) = Ok r ->
  exists events,
    child_spawn w (S (tick s)) (lit "node") [lit "--input-type=module"]
                (spawnOptions w timeout) = Spawned events
    /\ fromChild w (S (S (tick s))) (date_now w (tick s)) events r
    /\ effects_of (executeCode w code timeout s)
       = [Spawn (lit "node") [lit "--input-type=module"] (spawnOptions w timeout);
          StdinWrite code; StdinEnd].
Proof.
  intros Hcjs.
  pose proof (executeCode_module_shape w code timeout s Hcjs) as H. cbv zeta in H.
  destruct (child_spawn w (S (tick s)) (lit "node") [lit "--input-type=module"]
                        (spawnOptions w timeout)) as [e|events].
  - rewrite H. discriminate.
  - destruct H as (c' & s' & [_ HQ] & ->). cbn. intros Hr.
    exists events. repeat split. apply HQ. now apply awaited_ok.
Qed.

Lemma no_spawn_in_prefix pre file code :
  pre = [] \/ pre = [MkdirSync (path_join w (workingDir w) (lit "temp"))] ->
  forall command args opts,
    ~ In (Spawn command args opts) (pre ++ [WriteFileSync file code]).
Proof.
  intros [->| ->] c a o; cbn; intros H;
    repeat (destruct H as [H|H]; [discriminate H|]); exact H.
Qed.

Lemma cjsFrom_result code timeout s0 s pre r :
  pre = [] \/ pre = [MkdirSync (path_join w (workingDir w) (lit "temp"))] ->
  (S (tick s0) <= tick s)%nat ->
  let run := finish pre (cjsFrom w (date_now w (tick s0)) code timeout s) in
  result_of run = Ok r ->
  cjsResult w code timeout s0 (effects_of run) r.
Proof.
  intros Hpre Hk run. subst run.
  pose proof (cjsFrom_shape w (date_now w (tick s0)) code timeout s) as H.
  cbv zeta in H.
  destruct (fs_writeFileSync w (S (S (tick s))) (tempFileAt w (tick s)) code)
    as [e|] eqn:Ew.
  - rewrite H. cbn. intros [= <-]. right. exists e. split; [reflexivity|].
    split; [now apply no_spawn_in_prefix|].
    exists (S (S (tick s))), (tempFileAt w (tick s)). right. exists code.
    split; [apply in_or_app; right; now left | exact Ew].
  - destruct (child_spawn w (S (S (S (tick s)))) (lit "node")
                          [tempFileAt w (tick s)] (spawnOptions w timeout))
      as [e|events] eqn:Es.
    + rewrite H. discriminate.
    + destruct H as (c' & s' & [_ HQ] & ->). cbn. intros Hr.
      left. exists (S (S (S (tick s)))), (tempFileAt w (tick s)), events.
      split; [apply in_or_app; right; right; now left|].
      split; [exact Es|].
      apply awaited_ok in Hr. apply HQ in Hr.
      destruct Hr as [(exit & out & err & k & Hin & Hle & ->)|(m & k & Hin & Hle & ->)].
      * left. exists exit, out, err, k. repeat split; auto. lia.
      * right. exists m, k. repeat split; auto. lia.
Qed.

Lemma executeCode_commonjs_result code timeout s r :
  isCjs code = true ->
  result_of (executeCode w code timeout s) = Ok r ->
  cjsResult w code timeout s (effects_of (executeCode w code timeout s)) r.
Proof.
  intros Hcjs. rewrite (executeCode_commonjs_unfold w code timeout s Hcjs).
  cbv zeta.
  destruct (fs_existsSync w (S (tick s)) (path_join w (workingDir w) (lit "temp"))).
  - apply cjsFrom_result; [now left | cbn; lia].
  - destruct (fs_mkdirSync w (S (S (tick s))) (path_join w (workingDir w) (lit "temp")))
      as [e|] eqn:Em.
    + cbn. intros [= <-]. right. exists e. split; [reflexivity|]. split.
      * intros c a o [H|[]]. discriminate H.
      * exists (S (S (tick s))), (path_join w (workingDir w) (lit "temp")).
        left. split; [now left | exact Em].
    + apply cjsFrom_result; [now right | cbn; lia].
Qed.

Lemma executeDenoCode_envelope code timeout s :
  successIsExitZero (executeDenoCode w code timeout s)
  /\ errorOnlyFromSpawn w (executeDenoCode w code timeout s).
Proof.
  split.
  - intros r Hr.
    destruct (executeDenoCode_result code timeout s Hr) as (events & _ & Hc & _).
    exact (fromChild_exit Hc).
  - intros r m Hr He.
    destruct (executeDenoCode_result code timeout s Hr) as (events & Es & Hc & ->).
    destruct (fromChild_error Hc He) as (H1 & H2 & H3).
    repeat split; auto.
    exists (S (tick s)), (lit "deno"), denoArgs, (spawnOptions w timeout), events.
    repeat split; auto. now left.
Qed.

Lemma executeCode_module_envelope code timeout s :
  isCjs code = false ->
  successIsExitZero (executeCode w code timeout s)
  /\ errorOnlyFromSpawn w (executeCode w code timeout s).
Proof.
  intros Hcjs. split.
  - intros r Hr.
    destruct (executeCode_module_result code timeout s Hcjs Hr) as (events & _ & Hc & _).
    exact (fromChild_exit Hc).
  - intros r m Hr He.
    destruct (executeCode_module_result code timeout s Hcjs Hr) as (events & Es & Hc & ->).
    destruct (fromChild_error Hc He) as (H1 & H2 & H3).
    repeat split; auto.
    exists (S (tick s)), (lit "node"), [lit "--input-type=module"],
      (spawnOptions w timeout), events.
    repeat split; auto. now left.
Qed.

Lemma executeCode_commonjs_envelope code timeout s :
  isCjs code = true ->
  successIsExitZero (executeCode w code timeout s)
  /\ errorFromSpawnOrPrepare w (executeCode w code timeout s).
Proof.
  intros Hcjs. split.
  - intros r Hr.
    destruct (executeCode_commonjs_result code timeout s Hcjs Hr)
      as [(k & file & events & _ & _ & Hc)|(m & -> & _)].
    + exact (fromChild_exit Hc).
    + cbn. split; [intros n H | intros H]; discriminate H.
  - intros r m Hr He.
    destruct (executeCode_commonjs_result code timeout s Hcjs Hr)
      as [(k & file & events & Hin & Es & Hc)|(m' & -> & Hp)].
    + destruct (fromChild_error Hc He) as (H1 & H2 & H3).
      repeat split; auto. left.
      exists k, (lit "node"), [file], (spawnOptions w timeout), events. auto.
    + cbn in He. injection He as He. subst m'. cbn. auto.
Qed.

(** C2, as amended.  In every result of the three executors (the two
    strategies of the primary runtime, and the alternate runtime),
    whenever an exit code is present [success] is true exactly when it
    is 0.  An error message is there only after a spawn-level failure
    or, in the temp-file strategy, after a failure that came before
    any spawn (the scratch directory or the temp file could not be
    written); in both cases [success] is false and there is no exit
    code.  The stdin-pipe strategy and the alternate runtime set the
    message on spawn-level failures only. *)
Theorem envelope_success_and_error (code : jsstring) (timeout : Z) (s : Sys) :
  successIsExitZero (executeCode w code timeout s)
  /\ successIsExitZero (executeDenoCode w code timeout s)
  /\ errorFromSpawnOrPrepare w (executeCode w code timeout s)
  /\ errorOnlyFromSpawn w (executeDenoCode w code timeout s)
  /\ (isCjs code = false -> errorOnlyFromSpawn w (executeCode w code timeout s)).
Proof.
  destruct (executeDenoCode_envelope code timeout s) as [D1 D2].
  destruct (isCjs code) eqn:Hcjs.
  - destruct (executeCode_commonjs_envelope code timeout s Hcjs) as [C1 C2].
    split; [exact C1|]. split; [exact D1|]. split; [exact C2|].
    split; [exact D2 | discriminate].
  - destruct (executeCode_module_envelope code timeout s Hcjs) as [C1 C2].
    split; [exact C1|]. split; [exact D1|]. split; [|split; [exact D2 | intros _; exact C2]].
    intros r m Hr He. destruct (C2 r m Hr He) as (H1 & H2 & H3). auto.
Qed.

End Envelope.

(** C2, as stated, fails: on a working directory that cannot be written
    to, [executeCode] answers a commonjs request with an error message
    although nothing was spawned. *)
Lemma error_without_spawn :
  ~ errorOnlyFromSpawn
      (exampleWorld false ticking (fun _ => lit "0.k3j9") (Spawned [Close (ExitNum 0)]))
      (executeCode
         (exampleWorld false ticking (fun _ => lit "0.k3j9") (Spawned [Close (ExitNum 0)]))
         (lit "const fs = require('fs');") 120000 freshSys).
Proof.
  intros H.
  specialize (H (failed (lit "EACCES: permission denied, mkdir '/srv/temp'") None)
                (lit "EACCES: permission denied, mkdir '/srv/temp'")
                eq_refl eq_refl).
  destruct H as (_ & _ & (k & c & a & o & ev & Hin & _)).
  vm_compute in Hin. destruct Hin as [Hin|[]]. discriminate Hin.
Qed.

(** ** The elapsed time *)

Section ElapsedTime.
Variable w : World.

(** [executeDenoCode] puts the time in every result, and so does the
    stdin-pipe strategy of [executeCode]; it is the difference of two
    clock readings, the later less the earlier. *)
Lemma executeDenoCode_timed code timeout s r :
  result_of (executeDenoCode w code timeout s) = Ok r ->
  exists k, (tick s <= k)%nat
            /\ executionTimeMs r = Some (date_now w k - date_now w (tick s))%Z.
Proof.
  intros Hr.
  destruct (executeDenoCode_result w code timeout s Hr) as (events & _ & Hc & _).
  destruct (fromChild_time Hc) as (k & Hk & E).
  exists k. split; [lia | exact E].
Qed.

Lemma executeCode_module_timed code timeout s r :
  isCjs code = false ->
  result_of (executeCode w code timeout s) = Ok r ->
  exists k, (tick s <= k)%nat
            /\ executionTimeMs r = Some (date_now w k - date_now w (tick s))%Z.
Proof.
  intros Hcjs Hr.
  destruct (executeCode_module_result w code timeout s Hcjs Hr) as (events & _ & Hc & _).
  destruct (fromChild_time Hc) as (k & Hk & E).
  exists k. split; [lia | exact E].
Qed.

Lemma executeDenoCode_time_nonneg code timeout s r :
  monotone (date_now w) ->
  result_of (executeDenoCode w code timeout s) = Ok r ->
  exists t, executionTimeMs r = Some t /\ (0 <= t)%Z.
Proof.
  intros Hmono Hr.
  destruct (executeDenoCode_timed code timeout s Hr) as (k & Hk & E).
  eexists. split; [exact E|]. specialize (Hmono _ _ Hk). lia.
Qed.

(** In [executeCode] the early failure is the one path that leaves the
    time out: every other result carries it, and it is not negative when
    the clock does not run backwards. *)
Lemma executeCode_timed_unless_early code timeout s r :
  result_of (executeCode w code timeout s) = Ok r ->
  (exists k, (tick s <= k)%nat
             /\ executionTimeMs r = Some (date_now w k - date_now w (tick s))%Z)
  \/ (isCjs code = true
      /\ exists m, r = failed m None
                   /\ prepareFailed w (effects_of (executeCode w code timeout s)) m).
Proof.
  intros Hr. destruct (isCjs code) eqn:Hcjs.
  - destruct (executeCode_commonjs_result w code timeout s Hcjs Hr)
      as [(k & file & events & _ & _ & Hc)|(m & E & Hp)].
    + left. destruct (fromChild_time Hc) as (k' & Hk & E).
      exists k'. split; [lia | exact E].
    + right. split; [reflexivity|]. now exists m.
  - left. exact (@executeCode_module_timed code timeout s r Hcjs Hr).
Qed.

Lemma executeCode_time_nonneg code timeout s r t :
  monotone (date_now w) ->
  result_of (executeCode w code timeout s) = Ok r ->
  executionTimeMs r = Some t -> (0 <= t)%Z.
Proof.
  intros Hmono Hr Ht.
  destruct (executeCode_timed_unless_early code timeout s Hr)
    as [(k & Hk & E)|(_ & m & -> & _)].
  - rewrite E in Ht. injection Ht as <-. specialize (Hmono _ _ Hk). lia.
  - discriminate Ht.
Qed.

(** C3 at its failing path.  When [executeCode] takes the temp-file
    strategy and the scratch directory or the temp file cannot be
    written, the [catch] of [executeCode] answers with a result that
    has no [executionTimeMs] at all. *)
Theorem early_failure_has_no_time (code : jsstring) (timeout : Z) (s : Sys) :
  isCjs code = true ->
  (forall k file data, fs_writeFileSync w k file data <> None) ->
  exists r, result_of (executeCode w code timeout s) = Ok r
            /\ success r = false
            /\ executionTimeMs r = None.
Proof.
  intros Hcjs Hro.
  rewrite (executeCode_commonjs_unfold w code timeout s Hcjs). cbv zeta.
  assert (Hfrom : forall pre s', exists r,
             result_of (finish pre (cjsFrom w (date_now w (tick s)) code timeout s')) = Ok r
             /\ success r = false /\ executionTimeMs r = None).
  { intros pre s'.
    pose proof (cjsFrom_shape w (date_now w (tick s)) code timeout s') as H.
    cbv zeta in H.
    destruct (fs_writeFileSync w (S (S (tick s'))) (tempFileAt w (tick s')) code)
      as [e|] eqn:Ew.
    - rewrite H. exists (failed e None). repeat split.
    - exfalso. exact (Hro _ _ _ Ew). }
  destruct (fs_existsSync w (S (tick s)) (path_join w (workingDir w) (lit "temp"))).
  - apply Hfrom.
  - destruct (fs_mkdirSync w (S (S (tick s))) (path_join w (workingDir w) (lit "temp")))
      as [e|].
    + exists (failed e None). repeat split.
    + apply Hfrom.
Qed.

End ElapsedTime.

(** A commonjs request on a read-only working directory. *)
Lemma early_failure_has_no_time_witness :
  exists r,
    result_of
      (executeCode
         (exampleWorld false ticking (fun _ => lit "0.k3j9") (Spawned [Close (ExitNum 0)]))
         (lit "const fs = require('fs');") 120000 freshSys) = Ok r
    /\ success r = false
    /\ executionTimeMs r = None.
Proof.
  apply (@early_failure_has_no_time
           (exampleWorld false ticking (fun _ => lit "0.k3j9") (Spawned [Close (ExitNum 0)]))
           (lit "const fs = require('fs');") 120000 freshSys).
  - vm_compute. reflexivity.
  - intros k file data. cbn. discriminate.
Defined.

(** What the caller of the tool reads on that path. *)
Example early_failure_rendered :
  result_of
    (callToolHandler
       (exampleWorld false ticking (fun _ => lit "0.k3j9") (Spawned [Close (ExitNum 0)]))
       {| name := lit "executenodejs";
          arguments := Some {| arg_code := Some (lit "const fs = require('fs');");
                               arg_timeout := None; arg_query := None;
                               arg_folders := None; arg_extensions := None;
                               arg_ignores := None; arg_topK := None |} |}
       freshSys)
  = Ok {| content :=
            [Text (lit "ERROR: EACCES: permission denied, mkdir '/srv/temp'");
             Text (lit "Execution completed in undefinedms with exit code 0")] |}.
Proof. vm_compute. reflexivity. Qed.

(** ** The temp file *)

Section TempFile.
Variable w : World.

Lemma cjsListeners_any_unlink u st file ev c :
  alike (cjsListeners (with_unlink w u) st file ev c) (cjsListeners w st file ev c).
Proof.
  intros s. destruct ev as [d|d|exit|m]; cbn [cjsListeners]; try reflexivity.
  - unfold bind. cbn [now].
    rewrite (unlink_swallowed (with_unlink w u)), (unlink_swallowed w).
    reflexivity.
  - unfold bind.
    rewrite (unlink_swallowed (with_unlink w u)), (unlink_swallowed w).
    reflexivity.
Qed.

(** Whatever the deletions of the temp file do, [executeCode] ends in
    the same result and state, with the same log. *)
Lemma executeCode_any_unlink u code timeout :
  alike (executeCode (with_unlink w u) code timeout) (executeCode w code timeout).
Proof.
  unfold executeCode.
  apply bind_alike; [intros s; reflexivity|]. intros st.
  apply bind_alike; [|intros p; apply alike_refl].
  apply try_catch_alike; [|intros e; apply alike_refl].
  destruct (isCjs code).
  - cbv zeta.
    apply bind_alike; [intros s; reflexivity|]. intros present.
    apply bind_alike; [destruct (negb present); intros s; reflexivity|]. intros _.
    apply bind_alike; [intros s; reflexivity|]. intros t.
    apply bind_alike; [intros s; reflexivity|]. intros r.
    apply bind_alike; [intros s; reflexivity|]. intros _.
    apply new_promise_alike.
    apply bind_alike; [intros s; reflexivity|]. intros events.
    apply bind_alike; [|intros c; apply alike_refl].
    apply run_events_alike. intros ev c.
    apply cjsListeners_any_unlink.
  - intros s. reflexivity.
Qed.

Lemma unlinksOf_app file l1 l2 :
  unlinksOf file (l1 ++ l2) = (unlinksOf file l1 + unlinksOf file l2)%nat.
Proof.
  induction l1 as [|e l1 IH]; [reflexivity|].
  destruct e; cbn [app unlinksOf]; auto.
  destruct (same file0 file); cbn; auto.
Qed.

Lemma unlinksOf_repeat file n :
  unlinksOf file (repeat (UnlinkSync file) n) = n.
Proof.
  induction n as [|n IH]; [reflexivity|].
  cbn [repeat unlinksOf]. now rewrite same_refl, IH.
Qed.

Lemma cjsFrom_unlinks st code timeout s pre events :
  pre = [] \/ pre = [MkdirSync (path_join w (workingDir w) (lit "temp"))] ->
  (forall k command args opts, child_spawn w k command args opts = Spawned events) ->
  let log := effects_of (finish pre (cjsFrom w st code timeout s)) in
  forall file opts,
    In (Spawn (lit "node") [file] opts) log ->
    unlinksOf file log = terminals events.
Proof.
  intros Hpre Hsp log file opts. subst log.
  pose proof (cjsFrom_shape w st code timeout s) as H. cbv zeta in H.
  destruct (fs_writeFileSync w (S (S (tick s))) (tempFileAt w (tick s)) code) as [e|].
  - rewrite H. cbn [finish effects_of snd]. intros Hin.
    exfalso. eapply no_spawn_in_prefix; [exact Hpre | exact Hin].
  - rewrite Hsp in H. destruct H as (c' & s' & _ & ->).
    cbn [finish effects_of snd]. intros Hin.
    apply in_app_or in Hin as [Hin|Hin].
    { destruct Hpre as [->| ->]; [destruct Hin|].
      destruct Hin as [Hin|[]]. discriminate Hin. }
    destruct Hin as [Hin|[Hin|Hin]]; [discriminate Hin | |].
    + injection Hin as <- _.
      rewrite unlinksOf_app. cbn [unlinksOf].
      rewrite unlinksOf_repeat.
      destruct Hpre as [->| ->]; reflexivity.
    + apply repeat_spec in Hin. discriminate Hin.
Qed.

(** The listener paths of the temp-file strategy.  For a
    commonjs-classified request whose child was spawned, the deletion of
    the temp file is attempted once for every terminal event of the
    child, a ['close'] with any code or an ['error']; and what the
    deletions do, succeed or fail, does not show: the result is the same
    under every outcome of the deletions.  The spawn that throws at once
    has no listener and is not among these paths. *)
Theorem temp_file_cleanup (code : jsstring) (timeout : Z) (s : Sys)
        (events : list ChildEvent) :
  isCjs code = true ->
  (forall k command args opts, child_spawn w k command args opts = Spawned events) ->
  let log := effects_of (executeCode w code timeout s) in
  (forall file opts,
      In (Spawn (lit "node") [file] opts) log ->
      unlinksOf file log = terminals events)
  /\ (forall u1 u2,
         result_of (executeCode (with_unlink w u1) code timeout s)
         = result_of (executeCode (with_unlink w u2) code timeout s)).
Proof.
  intros Hcjs Hsp log. subst log. split.
  - rewrite (executeCode_commonjs_unfold w code timeout s Hcjs). cbv zeta.
    destruct (fs_existsSync w (S (tick s)) (path_join w (workingDir w) (lit "temp"))).
    + apply cjsFrom_unlinks; [now left | exact Hsp].
    + destruct (fs_mkdirSync w (S (S (tick s))) (path_join w (workingDir w) (lit "temp"))).
      * intros file opts [Hin|[]]. discriminate Hin.
      * apply cjsFrom_unlinks; [now right | exact Hsp].
  - intros u1 u2.
    now rewrite (executeCode_any_unlink u1 code timeout s),
                (executeCode_any_unlink u2 code timeout s).
Qed.

End TempFile.

(** ** The request router *)

Section RouterFacts.
Variable w : World.

Lemma dispatch_node request :
  In (name request) nodeTools ->
  dispatch w request =
  if negb (given (arg_code (argsOf request)))
  then throw (lit "Missing code argument for execute tool")
  else
    result <- executeCode w (str (arg_code (argsOf request)))
                          (timeoutOf (argsOf request)) ;;
    ret {| content := outputLines (lit "Execution completed in ") result |}.
Proof.
  unfold dispatch, argsOf.
  intros [H|[H|[H|[]]]]; rewrite <- H; reflexivity.
Qed.

Lemma dispatch_deno request :
  In (name request) denoTools ->
  dispatch w request =
  if negb (given (arg_code (argsOf request)))
  then throw (lit "Missing code argument for Deno execute tool")
  else
    result <- executeDenoCode w (str (arg_code (argsOf request)))
                              (timeoutOf (argsOf request)) ;;
    ret {| content := outputLines (lit "Deno execution completed in ") result |}.
Proof.
  unfold dispatch, argsOf.
  intros [H|[H|[]]]; rewrite <- H; reflexivity.
Qed.

Lemma dispatch_search request :
  In (name request) searchTools ->
  dispatch w request =
  if negb (given (arg_query (argsOf request)))
  then throw (lit "Missing query argument for code search tool")
  else
    result <- performCodeSearch w (str (arg_query (argsOf request)))
                (arg_folders (argsOf request)) (arg_extensions (argsOf request))
                (arg_ignores (argsOf request)) (arg_topK (argsOf request)) ;;
    ret {| content := searchLines (str (arg_query (argsOf request))) result |}.
Proof.
  unfold dispatch, argsOf.
  intros [H|[H|[]]]; rewrite <- H; reflexivity.
Qed.

Lemma dispatch_unknown request :
  ~ In (name request) knownTools ->
  dispatch w request = throw (lit "Unknown tool: " ++ name request).
Proof.
  intros H. unfold dispatch.
  repeat match goal with
         | |- context [same (name request) ?l] =>
             rewrite (@same_neq (name request) l)
               by (intros E; apply H; rewrite E; cbn; tauto)
         end.
  reflexivity.
Qed.

(** A thrown error leaves the handler as one error segment. *)
Lemma callToolHandler_catches request s m s' l :
  dispatch w request s = (Throw m, s', l) ->
  callToolHandler w request s = (Ok (errorResponse m), s', l).
Proof.
  intros H. unfold callToolHandler, try_catch. rewrite H.
  cbn. now rewrite app_nil_r.
Qed.

Lemma callToolHandler_never_throws request s m :
  result_of (callToolHandler w request s) <> Throw m.
Proof.
  unfold callToolHandler. apply try_catch_never_throws.
  intros e s' e'. discriminate.
Qed.

(** A missing argument: nothing runs, the message comes back. *)
Lemma missing_code_node request s :
  In (name request) nodeTools ->
  given (arg_code (argsOf request)) = false ->
  callToolHandler w request s
  = (Ok (errorResponse (lit "Missing code argument for execute tool")), s, []).
Proof.
  intros Hn Hg. apply callToolHandler_catches.
  rewrite (dispatch_node _ Hn), Hg. reflexivity.
Qed.

Lemma missing_code_deno request s :
  In (name request) denoTools ->
  given (arg_code (argsOf request)) = false ->
  callToolHandler w request s
  = (Ok (errorResponse (lit "Missing code argument for Deno execute tool")), s, []).
Proof.
  intros Hn Hg. apply callToolHandler_catches.
  rewrite (dispatch_deno _ Hn), Hg. reflexivity.
Qed.

Lemma missing_query request s :
  In (name request) searchTools ->
  given (arg_query (argsOf request)) = false ->
  callToolHandler w request s
  = (Ok (errorResponse (lit "Missing query argument for code search tool")), s, []).
Proof.
  intros Hn Hg. apply callToolHandler_catches.
  rewrite (dispatch_search _ Hn), Hg. reflexivity.
Qed.

(** C5.  The handler never ends with a thrown error: whatever the
    dispatch throws is caught and comes back as a response of one
    error-prefixed text segment.  That holds for a missing required
    argument of each tool, and for an unknown tool name, whose segment
    names the tool. *)
Theorem handler_contains_exceptions (request : Request) (s : Sys) :
  (forall m, result_of (callToolHandler w request s) <> Throw m)
  /\ (forall m, result_of (dispatch w request s) = Throw m ->
                result_of (callToolHandler w request s) = Ok (errorResponse m))
  /\ (~ In (name request) knownTools ->
      callToolHandler w request s
      = (Ok (errorResponse (lit "Unknown tool: " ++ name request)), s, []))
  /\ (In (name request) nodeTools -> arg_code (argsOf request) = None ->
      callToolHandler w request s
      = (Ok (errorResponse (lit "Missing code argument for execute tool")), s, []))
  /\ (In (name request) denoTools -> arg_code (argsOf request) = None ->
      callToolHandler w request s
      = (Ok (errorResponse (lit "Missing code argument for Deno execute tool")), s, []))
  /\ (In (name request) searchTools -> arg_query (argsOf request) = None ->
      callToolHandler w request s
      = (Ok (errorResponse (lit "Missing query argument for code search tool")), s, [])).
Proof.
  split; [intros m; apply callToolHandler_never_throws|].
  split.
  { intros m Hm.
    destruct (dispatch w request s) as [[r s'] l] eqn:E. cbn in Hm. subst r.
    now rewrite (callToolHandler_catches _ _ E). }
  split.
  { intros Hn. apply callToolHandler_catches.
    now rewrite (dispatch_unknown _ Hn). }
  split; [|split].
  - intros Hn Hc. apply missing_code_node; [exact Hn | now rewrite Hc].
  - intros Hn Hc. apply missing_code_deno; [exact Hn | now rewrite Hc].
  - intros Hn Hc. apply missing_query; [exact Hn | now rewrite Hc].
Qed.

(** C10.  An execution request whose [code] is the empty string, and a
    search request whose [query] is the empty string, are treated as
    if the argument were absent: the handler answers both with the
    same missing-argument error segment, its state is untouched and
    its log is empty, so no child is spawned and no search is made. *)
Theorem empty_argument_is_missing (toolName : jsstring) (args : Args) (s : Sys) :
  let sent c := {| name := toolName; arguments := Some (withCode c args) |} in
  let asked q := {| name := toolName; arguments := Some (withQuery q args) |} in
  (In toolName nodeTools ->
   callToolHandler w (sent (Some [])) s = callToolHandler w (sent None) s
   /\ callToolHandler w (sent (Some [])) s
      = (Ok (errorResponse (lit "Missing code argument for execute tool")), s, []))
  /\ (In toolName denoTools ->
      callToolHandler w (sent (Some [])) s = callToolHandler w (sent None) s
      /\ callToolHandler w (sent (Some [])) s
         = (Ok (errorResponse (lit "Missing code argument for Deno execute tool")), s, []))
  /\ (In toolName searchTools ->
      callToolHandler w (asked (Some [])) s = callToolHandler w (asked None) s
      /\ callToolHandler w (asked (Some [])) s
         = (Ok (errorResponse (lit "Missing query argument for code search tool")), s, [])).
Proof.
  intros sent asked. split; [|split]; intros Hn.
  - assert (E : forall c, given c = false ->
                callToolHandler w (sent c) s
                = (Ok (errorResponse (lit "Missing code argument for execute tool")), s, []))
      by (intros c Hc; apply missing_code_node; [exact Hn | exact Hc]).
    rewrite (E (Some [])), (E None); auto.
  - assert (E : forall c, given c = false ->
                callToolHandler w (sent c) s
                = (Ok (errorResponse (lit "Missing code argument for Deno execute tool")), s, []))
      by (intros c Hc; apply missing_code_deno; [exact Hn | exact Hc]).
    rewrite (E (Some [])), (E None); auto.
  - assert (E : forall q, given q = false ->
                callToolHandler w (asked q) s
                = (Ok (errorResponse (lit "Missing query argument for code search tool")), s, []))
      by (intros q Hq; apply missing_query; [exact Hn | exact Hq]).
    rewrite (E (Some [])), (E None); auto.
Qed.

End RouterFacts.

(** ** The rendering of an execution *)

Section Rendering.
Variable w : World.

Lemma given_nonEmpty o : given o = nonEmpty (str o).
Proof. destruct o; reflexivity. Qed.

Lemma codeOr0_shownExit r : codeOr0 (code r) = shownExit r.
Proof.
  unfold codeOr0, shownExit. destruct (code r) as [[n|]|]; try reflexivity.
  destruct (Z.eqb_spec n 0); congruence.
Qed.

(** The source's [outputLines] is the specification's sequence on every
    result whose error message goes with [success] false. *)
Lemma outputLines_in_order label r :
  (forall m, error r = Some m -> success r = false) ->
  outputLines label r = renderedInOrder label r.
Proof.
  intros He. unfold outputLines, renderedInOrder, segmentIf.
  rewrite !given_nonEmpty, codeOr0_shownExit.
  destruct (error r) as [m|] eqn:E.
  - rewrite (He m eq_refl). reflexivity.
  - cbn. rewrite andb_false_r. reflexivity.
Qed.

Lemma executeCode_error_fails code timeout s r m :
  result_of (executeCode w code timeout s) = Ok r ->
  error r = Some m -> success r = false.
Proof.
  intros Hr He. destruct (isCjs code) eqn:Hcjs.
  - destruct (executeCode_commonjs_envelope w code timeout s Hcjs) as [_ H].
    now destruct (H r m Hr He).
  - destruct (executeCode_module_envelope w code timeout s Hcjs) as [_ H].
    now destruct (H r m Hr He).
Qed.

Lemma executeDenoCode_error_fails code timeout s r m :
  result_of (executeDenoCode w code timeout s) = Ok r ->
  error r = Some m -> success r = false.
Proof.
  intros Hr He.
  destruct (executeDenoCode_envelope w code timeout s) as [_ H].
  now destruct (H r m Hr He).
Qed.

(** C6.  The content of an execution tool's response, for the result
    [r] of its executor, is in this order: the trimmed stdout if and
    only if stdout is not empty; the error-prefixed trimmed stderr if
    and only if stderr is not empty; the error-prefixed error message
    if and only if the result has a (non-empty) one; and last the
    summary with the elapsed time as the result carries it and the
    exit code, shown as 0 when the result has none. *)
Theorem execution_output_in_order (request : Request) (s : Sys) (r : ExecResult) :
  given (arg_code (argsOf request)) = true ->
  let code := str (arg_code (argsOf request)) in
  let timeout := timeoutOf (argsOf request) in
  (In (name request) nodeTools ->
   result_of (executeCode w code timeout s) = Ok r ->
   result_of (callToolHandler w request s)
   = Ok {| content := renderedInOrder (lit "Execution completed in ") r |})
  /\ (In (name request) denoTools ->
      result_of (executeDenoCode w code timeout s) = Ok r ->
      result_of (callToolHandler w request s)
      = Ok {| content := renderedInOrder (lit "Deno execution completed in ") r |}).
Proof.
  intros Hg code timeout. split; intros Hn Hr.
  - pose proof (fun m => @executeCode_error_fails code timeout s r m Hr) as He.
    unfold callToolHandler, try_catch.
    rewrite (dispatch_node w _ Hn), Hg. cbn [negb]. unfold bind.
    fold code. fold timeout.
    destruct (executeCode w code timeout s) as [[r' s'] l].
    cbn in Hr. subst r'. cbn.
    now rewrite (@outputLines_in_order _ r He).
  - pose proof (fun m => @executeDenoCode_error_fails code timeout s r m Hr) as He.
    unfold callToolHandler, try_catch.
    rewrite (dispatch_deno w _ Hn), Hg. cbn [negb]. unfold bind.
    fold code. fold timeout.
    destruct (executeDenoCode w code timeout s) as [[r' s'] l].
    cbn in Hr. subst r'. cbn.
    now rewrite (@outputLines_in_order _ r He).
Qed.

(** C7.  [executeDenoCode] classifies nothing: for every source text
    it spawns [deno] with [run], [--allow-all] and [-], and when the
    spawn hands back a child it writes the whole text to the child's
    stdin and closes it; the log is all there is, so the text has no
    part in the invocation. *)
Theorem deno_always_pipes_stdin (code : jsstring) (timeout : Z) (s : Sys) :
  let invocation :=
    Spawn (lit "deno") [lit "run"; lit "--allow-all"; lit "-"]
          {| opt_cwd := workingDir w; opt_timeout := timeout |} in
  let log := effects_of (executeDenoCode w code timeout s) in
  match child_spawn w (S (tick s)) (lit "deno")
                    [lit "run"; lit "--allow-all"; lit "-"]
                    {| opt_cwd := workingDir w; opt_timeout := timeout |} with
  | SpawnThrows _ => log = [invocation]
  | Spawned _ => log = [invocation; StdinWrite code; StdinEnd]
  end.
Proof.
  intros invocation log. subst log.
  pose proof (executeDenoCode_shape w code timeout s) as H. cbv zeta in H.
  change denoArgs with [lit "run"; lit "--allow-all"; lit "-"] in H.
  change (spawnOptions w timeout)
    with {| opt_cwd := workingDir w; opt_timeout := timeout |} in H.
  destruct (child_spawn w (S (tick s)) (lit "deno")
                        [lit "run"; lit "--allow-all"; lit "-"]
                        {| opt_cwd := workingDir w; opt_timeout := timeout |}).
  - rewrite H. reflexivity.
  - destruct H as (c' & s' & _ & ->). reflexivity.
Qed.

End Rendering.

(** ** Code search *)

Section Search.
Variable w : World.

(** C8.  Before [syncIndex] and then [queryIndex] run, every optional
    argument of a search that was left out has its default: the
    folders are the working directory alone, the extensions [js] and
    [ts], the ignore patterns [node_modules], and [topK] 8.  A list
    that was sent is split on commas and its items trimmed (a folder
    is then resolved to a path, an extension loses a leading dot); an
    empty string counts as left out. *)
Theorem search_arguments_defaulted (query : jsstring)
        (folders extensions ignores : option jsstring) (topK : option Z) (s : Sys) :
  let searchFolders := searchFoldersOf w folders in
  let searchExts := searchExtsOf extensions in
  let searchIgnores := searchIgnoresOf ignores in
  let k := topKOr8 topK in
  let log := effects_of (performCodeSearch w query folders extensions ignores topK s) in
  (* the defaults *)
  (folders = None -> searchFolders = [workingDir w])
  /\ (extensions = None -> searchExts = [lit "js"; lit "ts"])
  /\ (ignores = None -> searchIgnores = [lit "node_modules"])
  /\ (topK = None -> k = 8%Z)
  (* what was sent *)
  /\ (forall f, folders = Some f -> f <> [] ->
        searchFolders = map (fun x => path_resolve w (trim x)) (split comma f))
  /\ (forall e, extensions = Some e -> e <> [] ->
        searchExts = map (fun x => stripLeadingDot (trim x)) (split comma e))
  /\ (forall i, ignores = Some i -> i <> [] ->
        searchIgnores = map trim (split comma i))
  /\ (forall n, topK = Some n -> n <> 0%Z -> k = n)
  (* the sequence runs on the resolved values *)
  /\ (exists pre,
        (pre = [] \/ pre = [ImportIndexer])
        /\ (log = pre
            \/ log = pre ++ [SyncIndex searchFolders searchExts searchIgnores]
            \/ log = pre ++ [SyncIndex searchFolders searchExts searchIgnores;
                             QueryIndex query k]))
  /\ ((forall t, import_indexer w t = None) ->
      (forall t a b c, indexer_syncIndex w t a b c = None) ->
      exists pre,
        log = pre ++ [SyncIndex searchFolders searchExts searchIgnores;
                      QueryIndex query k]).
Proof.
  intros searchFolders searchExts searchIgnores k log.
  split; [intros ->; reflexivity|].
  split; [intros ->; reflexivity|].
  split; [intros ->; reflexivity|].
  split; [intros ->; reflexivity|].
  split.
  { intros f -> Hf. subst searchFolders. unfold searchFoldersOf.
    destruct f; [contradiction | reflexivity]. }
  split.
  { intros e -> He. subst searchExts. unfold searchExtsOf.
    destruct e; [contradiction | reflexivity]. }
  split.
  { intros i -> Hi. subst searchIgnores. unfold searchIgnoresOf.
    destruct i; [contradiction | reflexivity]. }
  split.
  { intros n -> Hn. subst k. unfold topKOr8.
    destruct (Z.eqb_spec n 0); [contradiction | reflexivity]. }
  subst log. unfold performCodeSearch.
  fold searchFolders. fold searchExts. fold searchIgnores. fold k.
  unfold bind, try_catch, now, getVectorIndexer, syncIndex, queryIndex, ret, outcome.
  cbn.
  destruct (vectorIndexer s) eqn:Ev; cbn.
  - destruct (indexer_syncIndex w (S (tick s)) searchFolders searchExts searchIgnores)
      as [e|] eqn:Es; cbn.
    + split.
      * exists []. split; [now left | right; left; reflexivity].
      * intros _ Hs. rewrite Hs in Es. discriminate Es.
    + rewrite Ev. cbn.
      destruct (indexer_queryIndex w (S (S (tick s))) query k) as [hits|e]; cbn;
        (split; [exists []; split; [now left | right; right; reflexivity]
                | intros _ _; exists []; reflexivity]).
  - destruct (import_indexer w (S (tick s))) as [e|] eqn:Ei; cbn.
    + split.
      * exists [ImportIndexer]. split; [now right | left; reflexivity].
      * intros Hi. rewrite Hi in Ei. discriminate Ei.
    + destruct (indexer_syncIndex w (S (S (tick s))) searchFolders searchExts
                                  searchIgnores) as [e|] eqn:Es; cbn.
      * split.
        -- exists [ImportIndexer]. split; [now right | right; left; reflexivity].
        -- intros _ Hs. rewrite Hs in Es. discriminate Es.
      * destruct (indexer_queryIndex w (S (S (S (tick s)))) query k) as [hits|e]; cbn;
          (split; [exists [ImportIndexer]; split; [now right | right; right; reflexivity]
                  | intros _ _; exists [ImportIndexer]; reflexivity]).
Qed.

End Search.

(** ** Temp-file names *)

Section TempNames.

Lemma digits_no_minus (u : Decimal.uint) : ~ In minus (digits u).
Proof.
  induction u; cbn [digits In]; intros H; try (destruct H as [H|H]; [discriminate H | auto]).
  exact H.
Qed.

Lemma digits_inj (u v : Decimal.uint) : digits u = digits v -> u = v.
Proof.
  revert v; induction u; intros v H; destruct v; cbn [digits] in H;
    try discriminate H; try reflexivity;
    injection H as H; f_equal; now apply IHu.
Qed.

Lemma split_at_first (c : code_unit) (l1 l2 x1 x2 : jsstring) :
  ~ In c l1 -> ~ In c l2 -> l1 ++ c :: x1 = l2 ++ c :: x2 -> l1 = l2 /\ x1 = x2.
Proof.
  revert l2; induction l1 as [|a l1 IH]; intros [|b l2] H1 H2 E; cbn in E.
  - injection E as ->. auto.
  - injection E as -> _. exfalso. apply H2. now left.
  - injection E as -> _. exfalso. apply H1. now left.
  - injection E as -> E.
    destruct (IH l2) as [-> ->]; auto.
    + intros H. apply H1. now right.
    + intros H. apply H2. now right.
Qed.

Lemma to_int_nonnil (z : Z) : Z.to_int z <> Decimal.Pos Decimal.Nil.
Proof.
  destruct z; cbn; try discriminate.
  intros [= H]. exact (DecimalPos.Unsigned.to_uint_nonnil _ H).
Qed.

(** A printed number followed by a minus sign can be read back. *)
Lemma ofNumber_then_minus (t1 t2 : Z) (x1 x2 : jsstring) :
  ofNumber t1 ++ minus :: x1 = ofNumber t2 ++ minus :: x2 -> t1 = t2 /\ x1 = x2.
Proof.
  unfold ofNumber. intros E.
  pose proof (to_int_nonnil t1) as N1. pose proof (to_int_nonnil t2) as N2.
  destruct (Z.to_int t1) as [u1|u1] eqn:E1, (Z.to_int t2) as [u2|u2] eqn:E2.
  - destruct (@split_at_first minus (digits u1) (digits u2) x1 x2
                (digits_no_minus u1) (digits_no_minus u2) E)
      as [Hd ->].
    apply digits_inj in Hd. subst u2. split; [|reflexivity].
    apply DecimalZ.to_int_inj. congruence.
  - exfalso. destruct u1; [now apply N1 | ..]; cbn in E; discriminate E.
  - exfalso. destruct u2; [now apply N2 | ..]; cbn in E; discriminate E.
  - cbn in E. injection E as E.
    destruct (@split_at_first minus (digits u1) (digits u2) x1 x2
                (digits_no_minus u1) (digits_no_minus u2) E)
      as [Hd ->].
    apply digits_inj in Hd. subst u2. split; [|reflexivity].
    apply DecimalZ.to_int_inj. congruence.
Qed.

Lemma tempFileName_inj (t1 t2 : Z) (r1 r2 : jsstring) :
  tempFileName t1 r1 = tempFileName t2 r2 ->
  t1 = t2 /\ substring 2 r1 = substring 2 r2.
Proof.
  unfold tempFileName. intros E.
  apply app_inv_head in E.
  change (lit "-" ++ ?x) with (minus :: x) in E.
  apply ofNumber_then_minus in E as [-> E].
  apply app_inv_tail in E. auto.
Qed.

(** C9, as amended.  Two commonjs requests whose timestamps or random
    components differ name different temp files, and write to
    different paths wherever [path.join] keeps these two names apart. *)
Theorem temp_files_differ_by_stamp (w : World) (k1 k2 : nat) :
  stampAt w k1 <> stampAt w k2 ->
  let tempDir := path_join w (workingDir w) (lit "temp") in
  let name1 := tempFileName (date_now w k1) (math_random36 w (S k1)) in
  let name2 := tempFileName (date_now w k2) (math_random36 w (S k2)) in
  (path_join w tempDir name1 = path_join w tempDir name2 -> name1 = name2) ->
  name1 <> name2 /\ tempFileAt w k1 <> tempFileAt w k2.
Proof.
  intros Hs tempDir name1 name2 Hj.
  assert (Hn : name1 <> name2).
  { intros E. apply tempFileName_inj in E as [E1 E2].
    apply Hs. unfold stampAt. now rewrite E1, E2. }
  split; [exact Hn|].
  intros E. apply Hn, Hj. exact E.
Qed.

End TempNames.

(** C9, as stated, fails: two commonjs requests that read the same
    millisecond and draw the same random number write to one file. *)
Lemma temp_files_collide :
  ~ tempFilesNeverCollide
      (exampleWorld true (fun _ => 1700000000000%Z) (fun _ => lit "0.k3j9")
                    (Spawned [Close (ExitNum 0)]))
      [lit "module.exports = 1;"; lit "module.exports = 2;"] 120000 freshSys.
Proof.
  unfold tempFilesNeverCollide. intros H.
  vm_compute in H.
  apply NoDup_cons_iff in H as [H _]. apply H. now left.
Qed.

(** Two requests one millisecond apart. *)
Lemma temp_files_differ_by_stamp_witness :
  tempFileAt (exampleWorld true ticking (fun _ => lit "0.k3j9") (Spawned [])) 2
  <> tempFileAt (exampleWorld true ticking (fun _ => lit "0.k3j9") (Spawned [])) 9.
Proof.
  apply (@temp_files_differ_by_stamp
           (exampleWorld true ticking (fun _ => lit "0.k3j9") (Spawned [])) 2 9).
  - vm_compute. discriminate.
  - cbn [path_join exampleWorld]. intros E.
    apply app_inv_head in E. apply app_inv_head in E. exact E.
Defined.

(** ** The scenarios of the specification *)

(** A commonjs request whose child fails: one terminal event, one
    deletion of the temp file. *)
Lemma temp_file_cleanup_witness :
  unlinksOf
    (tempFileAt (exampleWorld true ticking (fun _ => lit "0.k3j9")
                              (Spawned [StderrData (lit "boom"); Close (ExitNum 1)])) 3)
    (effects_of
       (executeCode (exampleWorld true ticking (fun _ => lit "0.k3j9")
                                  (Spawned [StderrData (lit "boom"); Close (ExitNum 1)]))
                    (lit "module.exports = 1;") 120000 freshSys))
  = 1%nat.
Proof.
  refine (proj1 (@temp_file_cleanup
                   (exampleWorld true ticking (fun _ => lit "0.k3j9")
                                 (Spawned [StderrData (lit "boom"); Close (ExitNum 1)]))
                   (lit "module.exports = 1;") 120000 freshSys
                   [StderrData (lit "boom"); Close (ExitNum 1)] _ _)
                _ {| opt_cwd := lit "/srv"; opt_timeout := 120000 |} _).
  - vm_compute. reflexivity.
  - intros k command args opts. reflexivity.
  - vm_compute. right. right. left. reflexivity.
Defined.

(** [console.log(1+1)] on the primary runtime with the default timeout:
    a stdout segment [2] and a summary with exit code 0. *)
Lemma execution_output_in_order_witness :
  result_of
    (callToolHandler
       (exampleWorld true ticking (fun _ => lit "0.k3j9")
                     (Spawned [StdoutData (lit "2" ++ [10%N]); Close (ExitNum 0)]))
       {| name := lit "executenodejs";
          arguments := Some (withCode (Some (lit "console.log(1+1)")) noArgs) |}
       freshSys)
  = Ok {| content := [Text (lit "2");
                      Text (lit "Execution completed in 2ms with exit code 0")] |}.
Proof.
  refine (proj1 (@execution_output_in_order
                   (exampleWorld true ticking (fun _ => lit "0.k3j9")
                                 (Spawned [StdoutData (lit "2" ++ [10%N]); Close (ExitNum 0)]))
                   {| name := lit "executenodejs";
                      arguments := Some (withCode (Some (lit "console.log(1+1)")) noArgs) |}
                   freshSys
                   {| success := true;
                      stdout := Some (lit "2" ++ [10%N]);
                      stderr := Some [];
                      executionTimeMs := Some 2%Z;
                      code := Some (ExitNum 0);
                      error := None |}
                   _) _ _).
  - vm_compute. reflexivity.
  - left. reflexivity.
  - vm_compute. reflexivity.
Defined.

(** [module.exports = 1;] is classified as commonjs and run from a temp
    file, which is deleted afterwards. *)
Example commonjs_scenario :
  effects_of
    (executeCode (exampleWorld true ticking (fun _ => lit "0.k3j9")
                               (Spawned [Close (ExitNum 0)]))
                 (lit "module.exports = 1;") 120000 freshSys)
  = [MkdirSync (lit "/srv/temp");
     WriteFileSync (lit "/srv/temp/node-exec-1700000000003-k3j9.cjs")
                   (lit "module.exports = 1;");
     Spawn (lit "node") [lit "/srv/temp/node-exec-1700000000003-k3j9.cjs"]
           {| opt_cwd := lit "/srv"; opt_timeout := 120000 |};
     UnlinkSync (lit "/srv/temp/node-exec-1700000000003-k3j9.cjs")].
Proof. vm_compute. reflexivity. Qed.

(** A marker inside a comment still selects the commonjs strategy. *)
Example marker_in_comment :
  isCjs (lit "// no require( here" ++ [10%N] ++ lit "console.log(1)") = true.
Proof. vm_compute. reflexivity. Qed.

(** The search for [parse config] with no other argument. *)
Example search_scenario :
  effects_of
    (callToolHandler
       (exampleWorld true ticking (fun _ => lit "0.k3j9") (Spawned []))
       {| name := lit "searchcode";
          arguments := Some (withQuery (Some (lit "parse config")) noArgs) |}
       freshSys)
  = [ImportIndexer;
     SyncIndex [lit "/srv"] [lit "js"; lit "ts"] [lit "node_modules"];
     QueryIndex (lit "parse config") 8].
Proof. vm_compute. reflexivity. Qed.

(** An unknown tool and a request with no arguments at all. *)
Example unknown_tool_scenario :
  callToolHandler
    (exampleWorld true ticking (fun _ => lit "0.k3j9") (Spawned []))
    {| name := lit "evaluate"; arguments := None |} freshSys
  = (Ok (errorResponse (lit "Unknown tool: evaluate")), freshSys, []).
Proof. vm_compute. reflexivity. Qed.

Example missing_code_scenario :
  callToolHandler
    (exampleWorld true ticking (fun _ => lit "0.k3j9") (Spawned []))
    {| name := lit "executedeno"; arguments := None |} freshSys
  = (Ok (errorResponse (lit "Missing code argument for Deno execute tool")), freshSys, []).
Proof. vm_compute. reflexivity. Qed.

(** A child ended by the timeout's signal: no exit code, shown as 0. *)
Example killed_scenario :
  result_of
    (callToolHandler
       (exampleWorld true ticking (fun _ => lit "0.k3j9")
                     (Spawned [StderrData (lit " late "); Close ExitNull]))
       {| name := lit "executedeno";
          arguments := Some (withCode (Some (lit "for(;;){}")) noArgs) |}
       freshSys)
  = Ok {| content := [Text (lit "ERROR: late");
                      Text (lit "Deno execution completed in 2ms with exit code 0")] |}.
Proof. vm_compute. reflexivity. Qed.

(** ** What the events of a child decide *)

Section Verdicts.
Variable w : World.

Lemma resolve_fresh r c : settled c = None -> settled (resolve r c) = Some r.
Proof. intros H. rewrite resolve_settled, H. reflexivity. Qed.

Lemma resolve_late r r' c : settled c = Some r -> settled (resolve r' c) = Some r.
Proof. intros H. rewrite resolve_settled, H. reflexivity. Qed.

(** Once settled, the promise of a stdin-pipe run stays as it is. *)
Lemma pipe_settled_stays st r events :
  forall c s, settled c = Some r ->
    exists c' s', run_events (esmListeners w st) events c s = (Ok c', s', [])
                  /\ settled c' = Some r.
Proof.
  intros c s H.
  destruct (@run_events_total (esmListeners w st)
              (fun c _ => settled c = Some r) (fun _ => []) events) with (c := c) (s := s)
    as (c' & s' & E & H'); [|exact H|].
  - intros ev c0 s0 _ H0. destruct ev as [d|d|exit|m]; cbn [esmListeners].
    + exists (onStdout d c0), s0. split; [reflexivity | exact H0].
    + exists (onStderr d c0), s0. split; [reflexivity | exact H0].
    + eexists _, _. split; [reflexivity | now apply resolve_late].
    + eexists _, _. split; [reflexivity | now apply resolve_late].
  - exists c', s'. rewrite flat_map_nil in E. auto.
Qed.

(** The listeners of a stdin-pipe run follow the verdict of the events;
    they read the clock once, when the first terminal event comes. *)
Lemma pipe_run_verdict st events :
  forall c s, settled c = None ->
    exists c' s',
      run_events (esmListeners w st) events c s = (Ok c', s', [])
      /\ awaited c'
         = settlement (verdict events (acc_stdout c) (acc_stderr c))
                      (date_now w (tick s) - st) (date_now w (tick s) - st).
Proof.
  induction events as [|ev rest IH]; intros c s Hc.
  - exists c, s. split; [reflexivity|]. unfold awaited. now rewrite Hc.
  - destruct ev as [d|d|exit|m].
    + destruct (IH (onStdout d c) s Hc) as (c' & s' & E & H).
      exists c', s'. split; [|exact H].
      cbn [run_events esmListeners]. unfold bind, try_catch, ret at 1.
      rewrite E. reflexivity.
    + destruct (IH (onStderr d c) s Hc) as (c' & s' & E & H).
      exists c', s'. split; [|exact H].
      cbn [run_events esmListeners]. unfold bind, try_catch, ret at 1.
      rewrite E. reflexivity.
    + set (r := closed c exit (date_now w (tick s) - st)).
      destruct (pipe_settled_stays st rest (resolve r c) (step s)
                                   (resolve_fresh r c Hc)) as (c' & s' & E & H).
      exists c', s'. split.
      * cbn [run_events esmListeners]. unfold bind, try_catch, now, ret.
        fold r. cbn. rewrite E. reflexivity.
      * unfold awaited. rewrite H. reflexivity.
    + set (r := failed m (Some (date_now w (tick s) - st)%Z)).
      destruct (pipe_settled_stays st rest (resolve r c) (step s)
                                   (resolve_fresh r c Hc)) as (c' & s' & E & H).
      exists c', s'. split.
      * cbn [run_events esmListeners]. unfold bind, try_catch, now, ret.
        fold r. cbn. rewrite E. reflexivity.
      * unfold awaited. rewrite H. reflexivity.
Qed.

(** Once settled, the promise of a commonjs run stays as it is. *)
Lemma cjs_settled_stays st file r events :
  forall c s, settled c = Some r ->
    exists c' s',
      run_events (cjsListeners w st file) events c s
      = (Ok c', s', flat_map (cjsLog file) events)
      /\ settled c' = Some r.
Proof.
  intros c s H.
  apply (@run_events_total (cjsListeners w st file)
           (fun c _ => settled c = Some r) (cjsLog file) events); [|exact H].
  intros ev c0 s0 _ H0. destruct ev as [d|d|exit|m]; cbn [cjsListeners cjsLog].
  - exists (onStdout d c0), s0. split; [reflexivity | exact H0].
  - exists (onStderr d c0), s0. split; [reflexivity | exact H0].
  - unfold bind at 1. cbn [now]. unfold bind at 1.
    rewrite unlink_swallowed. cbn.
    eexists _, _. split; [reflexivity | now apply resolve_late].
  - unfold bind at 1. rewrite unlink_swallowed.
    unfold bind at 1. cbn.
    eexists _, _. split; [reflexivity | now apply resolve_late].
Qed.

(** The listeners of a commonjs run follow the verdict too; the
    ['error'] listener reads the clock after its deletion. *)
Lemma cjs_run_verdict st file events :
  forall c s, settled c = None ->
    exists c' s',
      run_events (cjsListeners w st file) events c s
      = (Ok c', s', flat_map (cjsLog file) events)
      /\ awaited c'
         = settlement (verdict events (acc_stdout c) (acc_stderr c))
                      (date_now w (tick s) - st) (date_now w (S (tick s)) - st).
Proof.
  induction events as [|ev rest IH]; intros c s Hc.
  - exists c, s. split; [reflexivity|]. unfold awaited. now rewrite Hc.
  - destruct ev as [d|d|exit|m].
    + destruct (IH (onStdout d c) s Hc) as (c' & s' & E & H).
      exists c', s'. split; [|exact H].
      cbn [run_events cjsListeners flat_map cjsLog]. unfold bind, try_catch, ret at 1.
      rewrite E. reflexivity.
    + destruct (IH (onStderr d c) s Hc) as (c' & s' & E & H).
      exists c', s'. split; [|exact H].
      cbn [run_events cjsListeners flat_map cjsLog]. unfold bind, try_catch, ret at 1.
      rewrite E. reflexivity.
    + set (r := closed c exit (date_now w (tick s) - st)).
      destruct (cjs_settled_stays st file rest (resolve r c) (step (step s))
                                  (resolve_fresh r c Hc)) as (c' & s' & E & H).
      exists c', s'. split.
      * cbn [run_events cjsListeners flat_map cjsLog].
        unfold bind at 1. unfold try_catch at 1.
        unfold bind at 1. cbn [now]. unfold bind at 1.
        rewrite unlink_swallowed. fold r. cbn. rewrite E. reflexivity.
      * unfold awaited. rewrite H. reflexivity.
    + set (r := failed m (Some (date_now w (S (tick s)) - st)%Z)).
      destruct (cjs_settled_stays st file rest (resolve r c) (step (step s))
                                  (resolve_fresh r c Hc)) as (c' & s' & E & H).
      exists c', s'. split.
      * cbn [run_events cjsListeners flat_map cjsLog].
        unfold bind at 1. unfold try_catch at 1.
        unfold bind at 1. rewrite unlink_swallowed.
        unfold bind at 1. cbn. fold r. rewrite E. reflexivity.
      * unfold awaited. rewrite H. reflexivity.
Qed.

End Verdicts.

Section Outcomes.
Variable w : World.

Lemma executeDenoCode_run code timeout s events c' s' l :
  child_spawn w (S (tick s)) (lit "deno") denoArgs (spawnOptions w timeout)
  = Spawned events ->
  run_events (esmListeners w (date_now w (tick s))) events emptyCell (step (step s))
  = (Ok c', s', l) ->
  executeDenoCode w code timeout s
  = (awaited c', s',
     Spawn (lit "deno") denoArgs (spawnOptions w timeout)
     :: StdinWrite code :: StdinEnd :: l).
Proof.
  intros Es Er.
  unfold executeDenoCode, bind, try_catch, new_promise, await, now, spawn.
  cbn. rewrite Es. cbn.
  change (denoListeners w (date_now w (tick s)))
    with (esmListeners w (date_now w (tick s))).
  change {| tick := S (S (tick s)); vectorIndexer := vectorIndexer s |}
    with (step (step s)).
  rewrite Er. cbn. rewrite !app_nil_r. reflexivity.
Qed.

Lemma executeCode_module_run code timeout s events c' s' l :
  isCjs code = false ->
  child_spawn w (S (tick s)) (lit "node") [lit "--input-type=module"]
              (spawnOptions w timeout) = Spawned events ->
  run_events (esmListeners w (date_now w (tick s))) events emptyCell (step (step s))
  = (Ok c', s', l) ->
  executeCode w code timeout s
  = (awaited c', s',
     Spawn (lit "node") [lit "--input-type=module"] (spawnOptions w timeout)
     :: StdinWrite code :: StdinEnd :: l).
Proof.
  intros Hcjs Es Er.
  unfold executeCode, bind, try_catch, new_promise, await, now, spawn.
  rewrite Hcjs. cbn. rewrite Es. cbn.
  change {| tick := S (S (tick s)); vectorIndexer := vectorIndexer s |}
    with (step (step s)).
  rewrite Er. cbn. rewrite !app_nil_r. reflexivity.
Qed.

Lemma cjsFrom_run st code timeout s events c' s' l :
  let file := tempFileAt w (tick s) in
  fs_writeFileSync w (S (S (tick s))) file code = None ->
  child_spawn w (S (S (S (tick s)))) (lit "node") [file] (spawnOptions w timeout)
  = Spawned events ->
  run_events (cjsListeners w st file) events emptyCell (step (step (step (step s))))
  = (Ok c', s', l) ->
  cjsFrom w st code timeout s
  = (Ok (awaited c'), s',
     WriteFileSync file code
     :: Spawn (lit "node") [file] (spawnOptions w timeout) :: l).
Proof.
  intros file Ew Es Er.
  unfold cjsFrom, bind, new_promise, now, random36, writeFileSync, spawn.
  cbn. fold (tempFileAt w (tick s)). fold file. rewrite Ew. cbn.
  rewrite Es. cbn.
  change {| tick := S (S (S (S (tick s)))); vectorIndexer := vectorIndexer s |}
    with (step (step (step (step s)))).
  rewrite Er. cbn. rewrite !app_nil_r. reflexivity.
Qed.

(** X1.  The result of [executeDenoCode] is decided by the first
    terminal event of the child: a ['close'] gives its code with all the
    output gathered before it, an ['error'] gives the message and drops
    the output gathered so far, and what the child emits afterwards
    changes nothing; with no terminal event the promise never settles. *)
Theorem deno_result_is_verdict (code : jsstring) (timeout : Z) (s : Sys)
        (events : list ChildEvent) :
  child_spawn w (S (tick s)) (lit "deno") denoArgs (spawnOptions w timeout)
  = Spawned events ->
  let ms := (date_now w (S (S (tick s))) - date_now w (tick s))%Z in
  result_of (executeDenoCode w code timeout s)
  = settlement (verdict events [] []) ms ms.
Proof.
  intros Es ms.
  destruct (pipe_run_verdict w (date_now w (tick s)) events emptyCell
                             (step (step s)) eq_refl) as (c' & s' & Er & Hv).
  rewrite (executeDenoCode_run code timeout s Es Er). exact Hv.
Qed.

(** X2.  The same for the stdin-pipe strategy of [executeCode]. *)
Theorem module_result_is_verdict (code : jsstring) (timeout : Z) (s : Sys)
        (events : list ChildEvent) :
  isCjs code = false ->
  child_spawn w (S (tick s)) (lit "node") [lit "--input-type=module"]
              (spawnOptions w timeout) = Spawned events ->
  let ms := (date_now w (S (S (tick s))) - date_now w (tick s))%Z in
  result_of (executeCode w code timeout s)
  = settlement (verdict events [] []) ms ms.
Proof.
  intros Hcjs Es ms.
  destruct (pipe_run_verdict w (date_now w (tick s)) events emptyCell
                             (step (step s)) eq_refl) as (c' & s' & Er & Hv).
  rewrite (executeCode_module_run code timeout s Hcjs Es Er). exact Hv.
Qed.

Lemma cjsFrom_verdict st code timeout s pre events :
  writable w ->
  (forall k command args opts, child_spawn w k command args opts = Spawned events) ->
  let file := tempFileAt w (tick s) in
  let run := finish pre (cjsFrom w st code timeout s) in
  result_of run
  = settlement (verdict events [] [])
               (date_now w (tick s + 4) - st) (date_now w (tick s + 5) - st)
  /\ effects_of run
     = pre ++ WriteFileSync file code
           :: Spawn (lit "node") [file] (spawnOptions w timeout)
           :: repeat (UnlinkSync file) (terminals events).
Proof.
  intros [_ Hw] Hs file run. subst run.
  destruct (cjs_run_verdict w st file events emptyCell
                            (step (step (step (step s)))) eq_refl)
    as (c' & s' & Er & Hv).
  rewrite (@cjsFrom_run st code timeout s events c' s' _ (Hw _ _ _) (Hs _ _ _ _) Er).
  cbn [finish result_of effects_of fst snd].
  rewrite flat_map_cjsLog. split; [|reflexivity].
  rewrite Hv. cbn [tick step].
  replace (tick s + 4)%nat with (S (S (S (S (tick s))))) by lia.
  replace (tick s + 5)%nat with (S (S (S (S (S (tick s)))))) by lia.
  reflexivity.
Qed.

(** X3.  For the temp-file strategy of [executeCode] on a writable
    working directory: the result is decided by the first terminal
    event in the same way, and the log is the scratch directory when it
    was missing, the write of the code, the spawn of [node] on the file
    and one deletion of the file for every terminal event. *)
Theorem commonjs_result_is_verdict (code : jsstring) (timeout : Z) (s : Sys)
        (events : list ChildEvent) :
  isCjs code = true ->
  writable w ->
  (forall k command args opts, child_spawn w k command args opts = Spawned events) ->
  let tempDir := path_join w (workingDir w) (lit "temp") in
  let k := cjsSpawnTick w s in
  let file := tempFileAt w (k - 3) in
  let run := executeCode w code timeout s in
  result_of run
  = settlement (verdict events [] [])
               (date_now w (S k) - date_now w (tick s))
               (date_now w (S (S k)) - date_now w (tick s))
  /\ effects_of run
     = (if fs_existsSync w (S (tick s)) tempDir then [] else [MkdirSync tempDir])
       ++ WriteFileSync file code
          :: Spawn (lit "node") [file] (spawnOptions w timeout)
          :: repeat (UnlinkSync file) (terminals events).
Proof.
  intros Hcjs Hw Hs tempDir k file run. subst run file k.
  rewrite (executeCode_commonjs_unfold w code timeout s Hcjs). cbv zeta.
  unfold cjsSpawnTick. fold tempDir.
  destruct (fs_existsSync w (S (tick s)) tempDir).
  - destruct (@cjsFrom_verdict (date_now w (tick s)) code timeout (step (step s))
                               [] events Hw Hs) as [H1 H2].
    cbn [tick step] in H1, H2.
    replace (tick s + 5 - 3)%nat with (S (S (tick s))) by lia.
    replace (S (tick s + 5)) with (S (S (tick s)) + 4)%nat by lia.
    replace (S (S (S (tick s)) + 4)) with (S (S (tick s)) + 5)%nat by lia.
    split; [exact H1 | exact H2].
  - destruct Hw as [Hm Hwr]. rewrite Hm.
    destruct (@cjsFrom_verdict (date_now w (tick s)) code timeout
                               (step (step (step s)))
                               [MkdirSync tempDir] events (conj Hm Hwr) Hs) as [H1 H2].
    cbn [tick step] in H1, H2.
    replace (tick s + 6 - 3)%nat with (S (S (S (tick s)))) by lia.
    replace (S (tick s + 6)) with (S (S (S (tick s))) + 4)%nat by lia.
    replace (S (S (S (S (tick s))) + 4)) with (S (S (S (tick s))) + 5)%nat by lia.
    split; [exact H1 | exact H2].
Qed.

End Outcomes.

(** ** The handler over its executors *)

Section HandlerRuns.
Variable w : World.

Lemma try_bind_answered {A} (m : M A) (render : A -> list Segment) s :
  try_catch (result <- m ;; ret {| content := render result |})
            (fun message => ret {| content := [Text (lit "ERROR: " ++ message)] |}) s
  = answered render (m s).
Proof.
  unfold try_catch, bind, ret, answered, errorResponse.
  destruct (m s) as [[[r|e|] s'] l]; cbn; rewrite ?app_nil_r; reflexivity.
Qed.

Lemma handler_node request s :
  In (name request) nodeTools ->
  given (arg_code (argsOf request)) = true ->
  callToolHandler w request s
  = answered (outputLines (lit "Execution completed in "))
             (executeCode w (str (arg_code (argsOf request)))
                          (timeoutOf (argsOf request)) s).
Proof.
  intros Hn Hg. unfold callToolHandler.
  rewrite (dispatch_node w _ Hn), Hg. cbn [negb]. apply try_bind_answered.
Qed.

Lemma handler_deno request s :
  In (name request) denoTools ->
  given (arg_code (argsOf request)) = true ->
  callToolHandler w request s
  = answered (outputLines (lit "Deno execution completed in "))
             (executeDenoCode w (str (arg_code (argsOf request)))
                              (timeoutOf (argsOf request)) s).
Proof.
  intros Hn Hg. unfold callToolHandler.
  rewrite (dispatch_deno w _ Hn), Hg. cbn [negb]. apply try_bind_answered.
Qed.

Lemma handler_search request s :
  In (name request) searchTools ->
  given (arg_query (argsOf request)) = true ->
  callToolHandler w request s
  = answered (searchLines (str (arg_query (argsOf request))))
             (performCodeSearch w (str (arg_query (argsOf request)))
                (arg_folders (argsOf request)) (arg_extensions (argsOf request))
                (arg_ignores (argsOf request)) (arg_topK (argsOf request)) s).
Proof.
  intros Hn Hg. unfold callToolHandler.
  rewrite (dispatch_search w _ Hn), Hg. cbn [negb]. apply try_bind_answered.
Qed.

Lemma answered_result {A} (render : A -> list Segment) x :
  result_of (answered render x)
  = match result_of x with
    | Ok r => Ok {| content := render r |}
    | Throw e => Ok (errorResponse e)
    | Pending => Pending
    end.
Proof. destruct x as [[[r|e|] s'] l]; reflexivity. Qed.

Lemma answered_effects {A} (render : A -> list Segment) x :
  effects_of (answered render x) = effects_of x.
Proof. destruct x as [[[r|e|] s'] l]; reflexivity. Qed.

Lemma answered_state {A} (render : A -> list Segment) x :
  stateOf (answered render x) = stateOf x.
Proof. destruct x as [[[r|e|] s'] l]; reflexivity. Qed.

Lemma verdict_hanging events :
  terminals events = 0%nat -> forall out err, verdict events out err = Hanging.
Proof.
  induction events as [|[d|d|exit|m] rest IH]; cbn [terminals verdict];
    intros H out err; try discriminate H; auto.
Qed.

Lemma executeDenoCode_verdict code timeout s events :
  child_spawn w (S (tick s)) (lit "deno") denoArgs (spawnOptions w timeout)
  = Spawned events ->
  result_of (executeDenoCode w code timeout s)
  = settlement (verdict events [] [])
               (date_now w (S (S (tick s))) - date_now w (tick s))
               (date_now w (S (S (tick s))) - date_now w (tick s)).
Proof.
  intros Es.
  destruct (pipe_run_verdict w (date_now w (tick s)) events emptyCell
                             (step (step s)) eq_refl) as (c' & s' & Er & Hv).
  rewrite (executeDenoCode_run w code timeout s Es Er). exact Hv.
Qed.

Lemma executeCode_verdict code timeout s events :
  writable w ->
  (forall k command args opts, child_spawn w k command args opts = Spawned events) ->
  exists closeMs errorMs,
    result_of (executeCode w code timeout s)
    = settlement (verdict events [] []) closeMs errorMs.
Proof.
  intros Hw Hs. destruct (isCjs code) eqn:Hcjs.
  - rewrite (executeCode_commonjs_unfold w code timeout s Hcjs). cbv zeta.
    destruct (fs_existsSync w (S (tick s)) (path_join w (workingDir w) (lit "temp"))).
    + eexists _, _.
      exact (proj1 (@cjsFrom_verdict w (date_now w (tick s)) code timeout
                                     (step (step s)) [] events Hw Hs)).
    + rewrite (proj1 Hw). eexists _, _.
      exact (proj1 (@cjsFrom_verdict w (date_now w (tick s)) code timeout
                                     (step (step (step s))) _ events Hw Hs)).
  - destruct (pipe_run_verdict w (date_now w (tick s)) events emptyCell
                               (step (step s)) eq_refl) as (c' & s' & Er & Hv).
    eexists _, _.
    rewrite (executeCode_module_run w code timeout s Hcjs (Hs _ _ _ _) Er).
    exact Hv.
Qed.

(** X4.  A child that emits neither ['close'] nor ['error'] leaves the
    request of an execution tool unanswered: the handler returns no
    response and throws nothing, whatever output the child wrote. *)
Theorem silent_child_request_hangs (request : Request) (s : Sys)
        (events : list ChildEvent) :
  In (name request) (nodeTools ++ denoTools) ->
  given (arg_code (argsOf request)) = true ->
  writable w ->
  (forall k command args opts, child_spawn w k command args opts = Spawned events) ->
  terminals events = 0%nat ->
  result_of (callToolHandler w request s) = Pending.
Proof.
  intros Hn Hg Hw Hs Ht.
  apply in_app_or in Hn as [Hn|Hn].
  - rewrite (handler_node _ s Hn Hg), answered_result.
    destruct (executeCode_verdict (str (arg_code (argsOf request)))
                (timeoutOf (argsOf request)) s Hw Hs) as (a & b & ->).
    now rewrite (verdict_hanging _ Ht).
  - rewrite (handler_deno _ s Hn Hg), answered_result.
    rewrite (executeDenoCode_verdict _ _ s (Hs _ _ _ _)).
    now rewrite (verdict_hanging _ Ht).
Qed.

End HandlerRuns.

(** ** Spawns that throw, and the files a run deletes *)

Section FilesAndSpawns.
Variable w : World.

Lemma cjsLogShape_members code timeout log :
  cjsLogShape w code timeout log ->
  forall e, In e log ->
    e = MkdirSync (path_join w (workingDir w) (lit "temp"))
    \/ exists file,
        In (WriteFileSync file code) log
        /\ (e = WriteFileSync file code
            \/ e = Spawn (lit "node") [file] (spawnOptions w timeout)
            \/ e = UnlinkSync file).
Proof.
  intros [->|(pre & file & Hpre & Hlog)] e He.
  - destruct He as [<-|[]]. now left.
  - assert (Hw : In (WriteFileSync file code) log).
    { destruct Hlog as [->|(n & ->)]; apply in_or_app; right; now left. }
    destruct Hlog as [->|(n & ->)]; apply in_app_or in He as [He|He].
    + destruct Hpre as [->| ->]; [destruct He|]. destruct He as [<-|[]]. now left.
    + destruct He as [<-|[]]. right. exists file. auto.
    + destruct Hpre as [->| ->]; [destruct He|]. destruct He as [<-|[]]. now left.
    + right. exists file. split; [exact Hw|].
      destruct He as [<-|[<-|He]]; auto.
      apply repeat_spec in He. auto.
Qed.

Lemma node_deno_disjoint n : In n nodeTools -> In n denoTools -> False.
Proof.
  intros H1 H2.
  destruct H1 as [<-|[<-|[<-|[]]]]; vm_compute in H2;
    repeat (destruct H2 as [H2|H2]; [discriminate H2|]); exact H2.
Qed.

Lemma node_search_disjoint n : In n nodeTools -> In n searchTools -> False.
Proof.
  intros H1 H2.
  destruct H1 as [<-|[<-|[<-|[]]]]; vm_compute in H2;
    repeat (destruct H2 as [H2|H2]; [discriminate H2|]); exact H2.
Qed.

Lemma deno_search_disjoint n : In n denoTools -> In n searchTools -> False.
Proof.
  intros H1 H2.
  destruct H1 as [<-|[<-|[]]]; vm_compute in H2;
    repeat (destruct H2 as [H2|H2]; [discriminate H2|]); exact H2.
Qed.

(** X5.  When [spawn] throws at once (an invalid timeout, say) the
    request of an execution tool is answered with the one segment
    [ERROR: <message>].  In the temp-file strategy the file was written
    by then and no listener exists to delete it: it is left behind. *)
Theorem spawn_throw_leaves_temp_file (request : Request) (s : Sys) (e : jsstring) :
  In (name request) (nodeTools ++ denoTools) ->
  given (arg_code (argsOf request)) = true ->
  writable w ->
  (forall k command args opts, child_spawn w k command args opts = SpawnThrows e) ->
  let run := callToolHandler w request s in
  result_of run = Ok (errorResponse e)
  /\ (forall file, ~ In (UnlinkSync file) (effects_of run))
  /\ (In (name request) nodeTools ->
      isCjs (str (arg_code (argsOf request))) = true ->
      exists file, tempFilesOf (effects_of run) = [file]).
Proof.
  intros Hn Hg Hw Hs run. subst run.
  set (code := str (arg_code (argsOf request))).
  set (timeout := timeoutOf (argsOf request)).
  assert (Hnode :
            result_of (executeCode w code timeout s) = Throw e
            /\ (forall file, ~ In (UnlinkSync file) (effects_of (executeCode w code timeout s)))
            /\ (isCjs code = true ->
                exists file, tempFilesOf (effects_of (executeCode w code timeout s)) = [file])).
  { destruct (isCjs code) eqn:Hcjs.
    - assert (Hfrom : forall pre s',
                 pre = [] \/ pre = [MkdirSync (path_join w (workingDir w) (lit "temp"))] ->
                 let x := finish pre (cjsFrom w (date_now w (tick s)) code timeout s') in
                 result_of x = Throw e
                 /\ (forall file, ~ In (UnlinkSync file) (effects_of x))
                 /\ exists file, tempFilesOf (effects_of x) = [file]).
      { intros pre s' Hpre x. subst x.
        pose proof (cjsFrom_shape w (date_now w (tick s)) code timeout s') as H.
        cbv zeta in H. rewrite (proj2 Hw), Hs in H. rewrite H.
        cbn [finish result_of effects_of fst snd].
        split; [reflexivity|]. split.
        - intros file Hin. apply in_app_or in Hin as [Hin|Hin].
          + destruct Hpre as [->| ->]; [destruct Hin|].
            destruct Hin as [Hin|[]]. discriminate Hin.
          + destruct Hin as [Hin|[Hin|[]]]; discriminate Hin.
        - exists (tempFileAt w (tick s')).
          destruct Hpre as [->| ->]; reflexivity. }
      rewrite (executeCode_commonjs_unfold w code timeout s Hcjs). cbv zeta.
      destruct (fs_existsSync w (S (tick s)) (path_join w (workingDir w) (lit "temp"))).
      + destruct (Hfrom [] (step (step s)) (or_introl eq_refl)) as (H1 & H2 & H3). auto.
      + rewrite (proj1 Hw).
        destruct (Hfrom _ (step (step (step s))) (or_intror eq_refl)) as (H1 & H2 & H3).
        auto.
    - pose proof (executeCode_module_shape w code timeout s Hcjs) as H.
      cbv zeta in H. rewrite Hs in H. rewrite H.
      split; [reflexivity|]. split; [|discriminate].
      intros file [Hin|[]]. discriminate Hin. }
  apply in_app_or in Hn as [Hn|Hn].
  - rewrite (handler_node w _ s Hn Hg), answered_result, answered_effects.
    fold code. fold timeout. destruct Hnode as (H1 & H2 & H3).
    rewrite H1. auto.
  - rewrite (handler_deno w _ s Hn Hg), answered_result, answered_effects.
    fold code. fold timeout.
    pose proof (executeDenoCode_shape w code timeout s) as H.
    cbv zeta in H. rewrite Hs in H. rewrite H.
    split; [reflexivity|]. split.
    + intros file [Hin|[]]. discriminate Hin.
    + intros Hn'. exfalso. exact (@node_deno_disjoint _ Hn' Hn).
Qed.

(** X6.  The only file [executeCode] ever deletes is the temp file it
    wrote for this request, and only after it spawned [node] on it;
    [executeDenoCode] deletes nothing. *)
Theorem only_own_temp_file_deleted (code : jsstring) (timeout : Z) (s : Sys)
        (file : jsstring) :
  let log := effects_of (executeCode w code timeout s) in
  (In (UnlinkSync file) log ->
   isCjs code = true
   /\ exists before after,
       log = before ++ Spawn (lit "node") [file] (spawnOptions w timeout) :: after
       /\ In (WriteFileSync file code) before
       /\ ~ In (UnlinkSync file) before)
  /\ ~ In (UnlinkSync file) (effects_of (executeDenoCode w code timeout s)).
Proof.
  intros log. subst log. split.
  - intros Hin. destruct (isCjs code) eqn:Hcjs.
    + split; [reflexivity|].
      destruct (executeCode_commonjs_log w code timeout s Hcjs)
        as [E|(pre & f & Hpre & [E|(n & E)])]; rewrite E in Hin |- *.
      * destruct Hin as [Hin|[]]. discriminate Hin.
      * exfalso. apply in_app_or in Hin as [Hin|Hin].
        -- destruct Hpre as [->| ->]; [destruct Hin|].
           destruct Hin as [Hin|[]]. discriminate Hin.
        -- destruct Hin as [Hin|[]]. discriminate Hin.
      * assert (f = file) as ->.
        { apply in_app_or in Hin as [Hin|Hin].
          - destruct Hpre as [->| ->]; [destruct Hin|].
            destruct Hin as [Hin|[]]. discriminate Hin.
          - destruct Hin as [Hin|[Hin|Hin]]; try discriminate Hin.
            apply repeat_spec in Hin. now injection Hin. }
        exists (pre ++ [WriteFileSync file code]), (repeat (UnlinkSync file) n).
        split; [now rewrite <- app_assoc|]. split.
        -- apply in_or_app. right. now left.
        -- intros H. apply in_app_or in H as [H|[H|[]]]; [|discriminate H].
           destruct Hpre as [->| ->]; [destruct H|].
           destruct H as [H|[]]. discriminate H.
    + exfalso.
      destruct (executeCode_module_log w code timeout s Hcjs) as [E|E];
        rewrite E in Hin; cbn in Hin;
        repeat (destruct Hin as [Hin|Hin]; [discriminate Hin|]); exact Hin.
  - pose proof (executeDenoCode_shape w code timeout s) as H. cbv zeta in H.
    destruct (child_spawn w (S (tick s)) (lit "deno") denoArgs (spawnOptions w timeout)).
    + rewrite H. intros [Hin|[]]. discriminate Hin.
    + destruct H as (c' & s' & _ & ->). cbn. intros Hin.
      repeat (destruct Hin as [Hin|Hin]; [discriminate Hin|]). exact Hin.
Qed.

End FilesAndSpawns.

(** ** Code search, step by step *)

Section SearchRuns.
Variable w : World.

(** [performCodeSearch], by what the indexer does.  [k] is the call at
    which [syncIndex] runs: one later when the indexer is imported. *)
Lemma performCodeSearch_shape query folders extensions ignores topK s :
  let F := searchFoldersOf w folders in
  let E := searchExtsOf extensions in
  let I := searchIgnoresOf ignores in
  let K := topKOr8 topK in
  let st := date_now w (tick s) in
  let cold := negb (vectorIndexer s) in
  let k := if cold then S (S (tick s)) else S (tick s) in
  let pre := if cold then [ImportIndexer] else [] in
  performCodeSearch w query folders extensions ignores topK s =
  match (if cold then import_indexer w (S (tick s)) else None) with
  | Some e =>
      (Ok (SearchFailed e (date_now w (S (S (tick s))) - st)),
       {| tick := S (S (S (tick s))); vectorIndexer := false |}, [ImportIndexer])
  | None =>
      match indexer_syncIndex w k F E I with
      | Some e =>
          (Ok (SearchFailed e (date_now w (S k) - st)),
           {| tick := S (S k); vectorIndexer := true |}, pre ++ [SyncIndex F E I])
      | None =>
          match indexer_queryIndex w (S k) query K with
          | inl hits =>
              (Ok (SearchDone hits (date_now w (S (S k)) - st) F E I),
               {| tick := S (S (S k)); vectorIndexer := true |},
               pre ++ [SyncIndex F E I; QueryIndex query K])
          | inr e =>
              (Ok (SearchFailed e (date_now w (S (S k)) - st)),
               {| tick := S (S (S k)); vectorIndexer := true |},
               pre ++ [SyncIndex F E I; QueryIndex query K])
          end
      end
  end.
Proof.
  intros F E I K st cold k pre. subst cold k pre.
  unfold performCodeSearch.
  fold F. fold E. fold I. fold K.
  unfold bind, try_catch, now, getVectorIndexer, syncIndex, queryIndex, ret, outcome.
  cbn. fold st.
  destruct (vectorIndexer s) eqn:Ev; cbn.
  - destruct (indexer_syncIndex w (S (tick s)) F E I) as [e|]; cbn.
    + unfold step; cbn; rewrite ?Ev; reflexivity.
    + rewrite ?Ev. cbn.
      destruct (indexer_queryIndex w (S (S (tick s))) query K) as [hits|e];
        cbn; unfold step; cbn; rewrite ?Ev; reflexivity.
  - destruct (import_indexer w (S (tick s))) as [e|]; cbn.
    + unfold step; cbn; rewrite ?Ev; reflexivity.
    + destruct (indexer_syncIndex w (S (S (tick s))) F E I) as [e|]; cbn;
        [unfold step; cbn; rewrite ?Ev; reflexivity|].
      destruct (indexer_queryIndex w (S (S (S (tick s)))) query K) as [hits|e];
        unfold step; cbn; rewrite ?Ev; reflexivity.
Qed.

End SearchRuns.

(** ** What the executors keep and what they touch *)

Section Frames.
Variable w : World.

Lemma keeps_bind {A B} (m : M A) (k : A -> M B) :
  keepsIndexer m -> (forall a, keepsIndexer (k a)) -> keepsIndexer (bind m k).
Proof.
  intros Hm Hk s. specialize (Hm s). unfold bind, stateOf in *.
  destruct (m s) as [[[a|e|] s1] l1]; cbn in *; auto.
  specialize (Hk a s1). unfold stateOf in Hk.
  destruct (k a s1) as [[r s2] l2]. cbn in *. congruence.
Qed.

Lemma keeps_try_catch {A} (m : M A) (h : jsstring -> M A) :
  keepsIndexer m -> (forall e, keepsIndexer (h e)) -> keepsIndexer (try_catch m h).
Proof.
  intros Hm Hh s. specialize (Hm s). unfold try_catch, stateOf in *.
  destruct (m s) as [[[a|e|] s1] l1]; cbn in *; auto.
  specialize (Hh e s1). unfold stateOf in Hh.
  destruct (h e s1) as [[r s2] l2]. cbn in *. congruence.
Qed.

Lemma keeps_new_promise {A} (m : M A) :
  keepsIndexer m -> keepsIndexer (new_promise m).
Proof.
  intros Hm s. specialize (Hm s). unfold new_promise, stateOf in *.
  destruct (m s) as [[r s1] l1]. exact Hm.
Qed.

Lemma keeps_run_events listener events :
  (forall ev c, keepsIndexer (listener ev c)) ->
  forall c, keepsIndexer (run_events listener events c).
Proof.
  intros H. induction events as [|ev rest IH]; intros c.
  - intros s. reflexivity.
  - cbn [run_events]. apply keeps_bind; [|exact IH].
    apply keeps_try_catch; [apply H | intros e s; reflexivity].
Qed.

(** One step of a proof that a computation keeps the indexer: through
    the combinators, by cases on what the code branches on, and by
    computation at the primitives. *)
Ltac keeps_step :=
  first
    [ apply keeps_bind; [|intros ?]
    | apply keeps_try_catch; [|intros ?]
    | apply keeps_new_promise
    | apply keeps_run_events; intros ? ?
    | match goal with
      | |- keepsIndexer (if ?b then _ else _) => destruct b
      | |- keepsIndexer (match ?ev with _ => _ end) => destruct ev
      end
    | solve [intros ?; reflexivity] ].

Lemma executeCode_keeps code timeout : keepsIndexer (executeCode w code timeout).
Proof. unfold executeCode, cjsListeners, esmListeners. repeat keeps_step. Qed.

Lemma executeDenoCode_keeps code timeout : keepsIndexer (executeDenoCode w code timeout).
Proof. unfold executeDenoCode, denoListeners. repeat keeps_step. Qed.

(** The effects of the executors: on processes and files only, every
    spawn in the working directory with the timeout they were given. *)
Lemma executeCode_effects code timeout s e :
  In e (effects_of (executeCode w code timeout s)) ->
  processEffect e /\ spawnsWith w timeout e.
Proof.
  intros He. destruct (isCjs code) eqn:Hcjs.
  - destruct (cjsLogShape_members (executeCode_commonjs_log w code timeout s Hcjs) e He)
      as [->|(file & _ & [->|[->| ->]])]; cbn; auto.
  - destruct (executeCode_module_log w code timeout s Hcjs) as [E|E];
      rewrite E in He; cbn in He;
      repeat (destruct He as [<-|He]; [cbn; auto|]); destruct He.
Qed.

Lemma executeDenoCode_effects code timeout s e :
  In e (effects_of (executeDenoCode w code timeout s)) ->
  processEffect e /\ spawnsWith w timeout e.
Proof.
  pose proof (executeDenoCode_shape w code timeout s) as H. cbv zeta in H.
  destruct (child_spawn w (S (tick s)) (lit "deno") denoArgs (spawnOptions w timeout)).
  - rewrite H. intros [<-|[]]. cbn. auto.
  - destruct H as (c' & s' & _ & ->). cbn. intros He.
    repeat (destruct He as [<-|He]; [cbn; auto|]); destruct He.
Qed.

Lemma performCodeSearch_effects query folders extensions ignores topK s e :
  In e (effects_of (performCodeSearch w query folders extensions ignores topK s)) ->
  indexerEffect e.
Proof.
  rewrite performCodeSearch_shape. cbv zeta.
  destruct (vectorIndexer s); cbn [negb];
    repeat match goal with
           | |- context [match ?x with _ => _ end] => destruct x
           end;
    cbn; intros He;
    repeat (destruct He as [<-|He]; [exact I|]); destruct He.
Qed.

End Frames.

(** ** The router, tool by tool *)

Section RouterRuns.
Variable w : World.

Lemma tool_cases (n : jsstring) :
  In n nodeTools \/ In n denoTools \/ In n searchTools \/ ~ In n knownTools.
Proof.
  destruct (in_dec (list_eq_dec N.eq_dec) n knownTools) as [H|H]; [|auto].
  unfold knownTools in H.
  apply in_app_or in H as [H|H]; [auto|].
  apply in_app_or in H as [H|H]; auto.
Qed.

Lemma given_cases (o : option jsstring) : given o = true \/ given o = false.
Proof. destruct (given o); auto. Qed.

(** X7.  The tools keep to their own side: a request of an execution
    tool never touches the vector indexer, a search request never
    spawns a process and never touches a file, and a request for an
    unknown tool does nothing at all. *)
Theorem tools_keep_apart (request : Request) (s : Sys) (e : Effect) :
  In e (effects_of (callToolHandler w request s)) ->
  (In (name request) (nodeTools ++ denoTools) /\ processEffect e)
  \/ (In (name request) searchTools /\ indexerEffect e).
Proof.
  intros He.
  destruct (tool_cases (name request)) as [Hn|[Hn|[Hn|Hn]]].
  - left. split; [apply in_or_app; now left|].
    destruct (given_cases (arg_code (argsOf request))) as [Hg|Hg].
    + rewrite (handler_node w _ s Hn Hg), answered_effects in He.
      now destruct (executeCode_effects w _ _ _ _ He).
    + rewrite (missing_code_node w _ s Hn Hg) in He. destruct He.
  - left. split; [apply in_or_app; now right|].
    destruct (given_cases (arg_code (argsOf request))) as [Hg|Hg].
    + rewrite (handler_deno w _ s Hn Hg), answered_effects in He.
      now destruct (executeDenoCode_effects w _ _ _ _ He).
    + rewrite (missing_code_deno w _ s Hn Hg) in He. destruct He.
  - right. split; [exact Hn|].
    destruct (given_cases (arg_query (argsOf request))) as [Hg|Hg].
    + rewrite (handler_search w _ s Hn Hg), answered_effects in He.
      now apply performCodeSearch_effects in He.
    + rewrite (missing_query w _ s Hn Hg) in He. destruct He.
  - exfalso. unfold callToolHandler, try_catch in He.
    rewrite (dispatch_unknown w _ Hn) in He. destruct He.
Qed.

(** X8.  Every process spawned for a request is [node] or [deno],
    runs in the working directory of the server and gets the timeout of
    the request, 120000 ms when the request names none. *)
Theorem spawns_use_server_directory (request : Request) (s : Sys)
        (command : jsstring) (args : list jsstring) (opts : SpawnOptions) :
  In (Spawn command args opts) (effects_of (callToolHandler w request s)) ->
  (command = lit "node" \/ command = lit "deno")
  /\ opt_cwd opts = workingDir w
  /\ opt_timeout opts = match arg_timeout (argsOf request) with
                        | Some t => t
                        | None => 120000%Z
                        end.
Proof.
  intros He.
  destruct (tool_cases (name request)) as [Hn|[Hn|[Hn|Hn]]].
  - destruct (given_cases (arg_code (argsOf request))) as [Hg|Hg].
    + rewrite (handler_node w _ s Hn Hg), answered_effects in He.
      exact (proj2 (executeCode_effects w _ _ _ _ He)).
    + rewrite (missing_code_node w _ s Hn Hg) in He. destruct He.
  - destruct (given_cases (arg_code (argsOf request))) as [Hg|Hg].
    + rewrite (handler_deno w _ s Hn Hg), answered_effects in He.
      exact (proj2 (executeDenoCode_effects w _ _ _ _ He)).
    + rewrite (missing_code_deno w _ s Hn Hg) in He. destruct He.
  - exfalso.
    destruct (given_cases (arg_query (argsOf request))) as [Hg|Hg].
    + rewrite (handler_search w _ s Hn Hg), answered_effects in He.
      exact (performCodeSearch_effects w _ _ _ _ _ _ _ He).
    + rewrite (missing_query w _ s Hn Hg) in He. destruct He.
  - exfalso. unfold callToolHandler, try_catch in He.
    rewrite (dispatch_unknown w _ Hn) in He. destruct He.
Qed.

End RouterRuns.

(** ** Searches and the indexer *)

Section SearchFacts.
Variable w : World.

(** X9.  [performCodeSearch] never rejects: its [catch] turns what any
    step throws into a failure result.  Whenever it returns, the result
    is either the hits of [queryIndex] or the message thrown by the step
    that failed (the import of the indexer, [syncIndex] or
    [queryIndex]), and in both cases it carries the elapsed time, a
    later clock reading less the first one. *)
Theorem search_result_is_timed (query : jsstring)
        (folders extensions ignores : option jsstring) (topK : option Z) (s : Sys) :
  let run := performCodeSearch w query folders extensions ignores topK s in
  (forall m, result_of run <> Throw m)
  /\ forall r, result_of run = Ok r ->
       exists k,
         (tick s < k)%nat
         /\ ((exists hits,
                r = SearchDone hits (date_now w k - date_now w (tick s))
                               (searchFoldersOf w folders) (searchExtsOf extensions)
                               (searchIgnoresOf ignores)
                /\ exists t, indexer_queryIndex w t query (topKOr8 topK) = inl hits)
             \/ (exists m,
                   r = SearchFailed m (date_now w k - date_now w (tick s))
                   /\ thrownBySearch w query folders extensions ignores topK m)).
Proof.
  intros run. subst run. rewrite performCodeSearch_shape. cbv zeta.
  unfold thrownBySearch.
  set (cold := negb (vectorIndexer s)).
  set (k := if cold then S (S (tick s)) else S (tick s)).
  assert (Hk : (tick s < k)%nat) by (subst k; destruct cold; lia).
  destruct (if cold then import_indexer w (S (tick s)) else None) as [e|] eqn:Ei.
  - split; [discriminate|]. intros r [= <-].
    exists (S (S (tick s))). split; [lia|]. right. exists e. split; [reflexivity|].
    left. exists (S (tick s)). destruct cold; [exact Ei | discriminate Ei].
  - destruct (indexer_syncIndex w k _ _ _) as [e|] eqn:Es.
    + split; [discriminate|]. intros r [= <-].
      exists (S k). split; [lia|]. right. exists e. split; [reflexivity|].
      right. left. now exists k.
    + destruct (indexer_queryIndex w (S k) query (topKOr8 topK)) as [hits|e] eqn:Eq.
      * split; [discriminate|]. intros r [= <-].
        exists (S (S k)). split; [lia|]. left. exists hits. split; [reflexivity|].
        now exists (S k).
      * split; [discriminate|]. intros r [= <-].
        exists (S (S k)). split; [lia|]. right. exists e. split; [reflexivity|].
        right. right. now exists (S k).
Qed.

(** X10.  A search request whose indexer fails, at the import, in
    [syncIndex] or in [queryIndex], is answered with the one segment
    [ERROR: <message>] of the step that failed; no header, no hit and
    no timing goes with it. *)
Theorem failed_search_is_one_segment (request : Request) (s : Sys) (m : jsstring) :
  In (name request) searchTools ->
  given (arg_query (argsOf request)) = true ->
  let answer := result_of (callToolHandler w request s) in
  (vectorIndexer s = false -> (forall t, import_indexer w t = Some m) ->
   answer = Ok (errorResponse m))
  /\ ((forall t, import_indexer w t = None) ->
      (forall t folders exts ignores,
          indexer_syncIndex w t folders exts ignores = Some m) ->
      answer = Ok (errorResponse m))
  /\ (indexerReady w ->
      (forall t q k, indexer_queryIndex w t q k = inr m) ->
      answer = Ok (errorResponse m)).
Proof.
  intros Hn Hg answer. subst answer.
  rewrite (handler_search w _ s Hn Hg), answered_result, performCodeSearch_shape.
  cbv zeta. split; [|split].
  - intros Hc Hi. rewrite Hc. cbn [negb]. rewrite Hi. reflexivity.
  - intros Hi Hs. rewrite Hi, Hs. destruct (negb (vectorIndexer s)); reflexivity.
  - intros [Hi Hs] Hq. rewrite Hi, Hs, Hq.
    destruct (negb (vectorIndexer s)); reflexivity.
Qed.

(** X11.  A search that succeeds is answered with a header, then
    [No results found.] or a count line and one block for every hit in
    the order of [queryIndex], then the timing: three segments when
    there is no hit, the number of hits and three otherwise. *)
Theorem search_answer_layout (request : Request) (s : Sys) (hits : list Hit) :
  In (name request) searchTools ->
  given (arg_query (argsOf request)) = true ->
  indexerReady w ->
  (forall t q k, indexer_queryIndex w t q k = inl hits) ->
  exists header ms,
    result_of (callToolHandler w request s)
    = Ok {| content :=
              Text header
              :: match hits with
                 | [] => [Text (lit "No results found.")]
                 | _ :: _ =>
                     Text (lit "Found " ++ ofNumber (Z.of_nat (List.length hits))
                           ++ lit " result(s):")
                     :: map hitSegment hits
                 end
              ++ [Text (lit "Search completed in " ++ ofNumber ms ++ lit "ms")] |}
    /\ (forall content,
           result_of (callToolHandler w request s) = Ok {| content := content |} ->
           List.length content
           = match hits with [] => 3 | _ :: _ => List.length hits + 3 end%nat).
Proof.
  intros Hn Hg [Hi Hs] Hq.
  rewrite (handler_search w _ s Hn Hg), answered_result, performCodeSearch_shape.
  cbv zeta. rewrite Hi, Hs, Hq.
  assert (E : (if negb (vectorIndexer s) then @None jsstring else None) = None)
    by (destruct (negb (vectorIndexer s)); reflexivity).
  rewrite E. cbn [result_of fst searchLines app].
  eexists _, _. split; [reflexivity|].
  intros content [= <-]. destruct hits as [|h hits]; [reflexivity|].
  cbn [List.length app]. rewrite length_app, length_map. cbn. lia.
Qed.

Lemma handler_warm request : warm (callToolHandler w request).
Proof.
  intros s Hs.
  destruct (tool_cases (name request)) as [Hn|[Hn|[Hn|Hn]]].
  - destruct (given_cases (arg_code (argsOf request))) as [Hg|Hg].
    + rewrite (handler_node w _ s Hn Hg), answered_state, answered_effects.
      rewrite executeCode_keeps. split; [exact Hs|].
      intros He. now destruct (executeCode_effects w _ _ _ _ He).
    + rewrite (missing_code_node w _ s Hn Hg). split; [exact Hs | intros []].
  - destruct (given_cases (arg_code (argsOf request))) as [Hg|Hg].
    + rewrite (handler_deno w _ s Hn Hg), answered_state, answered_effects.
      rewrite executeDenoCode_keeps. split; [exact Hs|].
      intros He. now destruct (executeDenoCode_effects w _ _ _ _ He).
    + rewrite (missing_code_deno w _ s Hn Hg). split; [exact Hs | intros []].
  - destruct (given_cases (arg_query (argsOf request))) as [Hg|Hg].
    + rewrite (handler_search w _ s Hn Hg), answered_state, answered_effects.
      rewrite performCodeSearch_shape. cbv zeta. rewrite Hs. cbn [negb].
      repeat match goal with
             | |- context [match ?x with _ => _ end] => destruct x
             end;
        (split; [reflexivity|]);
        cbn; intros He;
        repeat (destruct He as [He|He]; [discriminate He|]); exact He.
    + rewrite (missing_query w _ s Hn Hg). split; [exact Hs | intros []].
  - unfold callToolHandler, try_catch.
    rewrite (dispatch_unknown w _ Hn). split; [exact Hs | intros []].
Qed.

(** X12.  Once the indexer is loaded it stays loaded and is never
    imported again, whatever requests follow: executions, searches that
    succeed or fail, missing arguments, unknown tools. *)
Theorem indexer_imported_once (requests : list Request) (s : Sys) :
  vectorIndexer s = true ->
  vectorIndexer (fst (serveRequests w requests s)) = true
  /\ ~ In ImportIndexer (snd (serveRequests w requests s)).
Proof.
  revert s. induction requests as [|request rest IH]; intros s Hs.
  - split; [exact Hs | intros []].
  - cbn [serveRequests].
    destruct (handler_warm request s Hs) as [H1 H2].
    unfold stateOf in H1.
    destruct (callToolHandler w request s) as [[r s1] l1]. cbn in H1, H2.
    destruct (IH s1 H1) as [H3 H4].
    destruct (serveRequests w rest s1) as [s2 l2]. cbn in *.
    split; [exact H3|].
    intros H. apply in_app_or in H as [H|H]; auto.
Qed.

(** X13.  A search from a state where the indexer is not loaded
    imports it exactly once, first of all, although [getVectorIndexer]
    is called twice; the indexer is loaded afterwards exactly when the
    import succeeded, so a failed import is tried again by the next
    search. *)
Theorem cold_search_imports_once (request : Request) (s : Sys) :
  In (name request) searchTools ->
  given (arg_query (argsOf request)) = true ->
  vectorIndexer s = false ->
  let run := callToolHandler w request s in
  (exists rest, effects_of run = ImportIndexer :: rest /\ ~ In ImportIndexer rest)
  /\ (vectorIndexer (stateOf run) = true <-> import_indexer w (S (tick s)) = None).
Proof.
  intros Hn Hg Hs run. subst run.
  rewrite (handler_search w _ s Hn Hg), answered_state, answered_effects.
  rewrite performCodeSearch_shape. cbv zeta. rewrite Hs. cbn [negb].
  destruct (import_indexer w (S (tick s))) as [e|].
  - split.
    + exists []. split; [reflexivity | intros []].
    + cbn. split; discriminate.
  - repeat match goal with
           | |- context [match ?x with _ => _ end] => destruct x
           end;
      (split;
       [ eexists; split; [reflexivity|];
         cbn; intros He;
         repeat (destruct He as [He|He]; [discriminate He|]); exact He
       | cbn; split; reflexivity ]).
Qed.

End SearchFacts.

(** ** What the caller reads *)

Section Answers.
Variable w : World.

Lemma verdict_close_first pre exit post :
  terminals pre = 0%nat ->
  forall out err,
    verdict (pre ++ Close exit :: post) out err
    = Exited exit (out ++ stdoutOf pre) (err ++ stderrOf pre).
Proof.
  induction pre as [|[d|d|e|m] pre IH]; cbn [terminals app verdict stdoutOf stderrOf];
    intros H out err; try discriminate H.
  - now rewrite !app_nil_r.
  - rewrite (IH H). now rewrite app_assoc.
  - rewrite (IH H). now rewrite app_assoc.
Qed.

Lemma verdict_error_first pre m post :
  terminals pre = 0%nat ->
  forall out err, verdict (pre ++ ProcError m :: post) out err = Errored m.
Proof.
  induction pre as [|[d|d|e|m'] pre IH]; cbn [terminals app verdict];
    intros H out err; try discriminate H; auto.
Qed.

Lemma labelOf_node n : In n nodeTools -> labelOf n = lit "Execution completed in ".
Proof. intros [<-|[<-|[<-|[]]]]; reflexivity. Qed.

Lemma labelOf_deno n : In n denoTools -> labelOf n = lit "Deno execution completed in ".
Proof. intros [<-|[<-|[]]]; reflexivity. Qed.

(** The answer of an execution tool, by the verdict of the events. *)
Lemma execution_answer request s events :
  In (name request) (nodeTools ++ denoTools) ->
  given (arg_code (argsOf request)) = true ->
  writable w ->
  (forall k command args opts, child_spawn w k command args opts = Spawned events) ->
  exists closeMs errorMs,
    result_of (callToolHandler w request s)
    = match settlement (verdict events [] []) closeMs errorMs with
      | Ok r => Ok {| content := outputLines (labelOf (name request)) r |}
      | Throw e => Ok (errorResponse e)
      | Pending => Pending
      end.
Proof.
  intros Hn Hg Hw Hs. apply in_app_or in Hn as [Hn|Hn].
  - destruct (@executeCode_verdict w (str (arg_code (argsOf request)))
                (timeoutOf (argsOf request)) s events Hw Hs) as (a & b & E).
    exists a, b.
    rewrite (handler_node w _ s Hn Hg), answered_result, E, (labelOf_node Hn).
    reflexivity.
  - eexists _, _.
    rewrite (handler_deno w _ s Hn Hg), answered_result.
    rewrite (@executeDenoCode_verdict w _ _ s _ (Hs _ _ _ _)), (labelOf_deno Hn).
    reflexivity.
Qed.

(** X14.  When the child's first terminal event is an ['error'] (the
    binary is missing, say), the caller reads the message and a summary
    that shows exit code 0: the output gathered before the error is not
    shown, and a ['close'] that follows, with whatever code, changes
    nothing. *)
Theorem spawn_error_answer (request : Request) (s : Sys)
        (pre post : list ChildEvent) (m : jsstring) :
  In (name request) (nodeTools ++ denoTools) ->
  given (arg_code (argsOf request)) = true ->
  writable w ->
  (forall k command args opts,
      child_spawn w k command args opts = Spawned (pre ++ ProcError m :: post)) ->
  terminals pre = 0%nat ->
  m <> [] ->
  exists ms,
    result_of (callToolHandler w request s)
    = Ok {| content := [Text (lit "ERROR: " ++ m);
                        summaryOf (labelOf (name request)) ms (lit "0")] |}.
Proof.
  intros Hn Hg Hw Hs Ht Hm.
  destruct (execution_answer request s Hn Hg Hw Hs) as (a & b & E).
  exists b. rewrite E, (@verdict_error_first pre m post Ht).
  cbn [settlement]. unfold outputLines, failed. cbn.
  destruct m; [contradiction | reflexivity].
Qed.

(** X15.  A child ended by a signal (the spawn timeout kills it that
    way) has no exit code, and the caller reads exactly what a clean
    exit with the same output would give: the output and a summary with
    exit code 0, and no error segment for the kill. *)
Theorem killed_child_reads_as_exit_zero (request : Request) (s : Sys)
        (pre post : list ChildEvent) :
  In (name request) (nodeTools ++ denoTools) ->
  given (arg_code (argsOf request)) = true ->
  writable w ->
  (forall k command args opts,
      child_spawn w k command args opts = Spawned (pre ++ Close ExitNull :: post)) ->
  terminals pre = 0%nat ->
  exists ms,
    result_of (callToolHandler w request s)
    = Ok {| content :=
              outputLines (labelOf (name request))
                          (exited (ExitNum 0) (stdoutOf pre) (stderrOf pre) ms) |}
    /\ outputLines (labelOf (name request))
                   (exited (ExitNum 0) (stdoutOf pre) (stderrOf pre) ms)
       = segmentIf (nonEmpty (stdoutOf pre)) (trim (stdoutOf pre))
         ++ segmentIf (nonEmpty (stderrOf pre)) (lit "ERROR: " ++ trim (stderrOf pre))
         ++ [summaryOf (labelOf (name request)) ms (lit "0")].
Proof.
  intros Hn Hg Hw Hs Ht.
  destruct (execution_answer request s Hn Hg Hw Hs) as (a & b & E).
  exists a. rewrite E, (@verdict_close_first pre _ post Ht). cbn [settlement app].
  split; reflexivity.
Qed.

Lemma trimStart_spaces s : forallb is_space s = true -> trimStart s = [].
Proof.
  induction s as [|c s IH]; [reflexivity|].
  cbn [forallb trimStart]. intros H. apply andb_true_iff in H as [Hc Hs].
  rewrite Hc. auto.
Qed.

Lemma trim_spaces s : forallb is_space s = true -> trim s = [].
Proof. intros H. unfold trim, trimEnd. now rewrite (trimStart_spaces _ H). Qed.

(** X16.  Output that is not empty but all white space (the line
    break of an empty [console.log()], say) is not left out: the caller
    reads a first segment with an empty text. *)
Theorem blank_output_gives_empty_segment (request : Request) (s : Sys)
        (pre post : list ChildEvent) (exit : JsExit) :
  In (name request) (nodeTools ++ denoTools) ->
  given (arg_code (argsOf request)) = true ->
  writable w ->
  (forall k command args opts,
      child_spawn w k command args opts = Spawned (pre ++ Close exit :: post)) ->
  terminals pre = 0%nat ->
  stdoutOf pre <> [] ->
  forallb is_space (stdoutOf pre) = true ->
  exists rest,
    result_of (callToolHandler w request s) = Ok {| content := Text [] :: rest |}.
Proof.
  intros Hn Hg Hw Hs Ht Hne Hsp.
  destruct (execution_answer request s Hn Hg Hw Hs) as (a & b & E).
  rewrite E, (@verdict_close_first pre _ post Ht). cbn [settlement app].
  unfold outputLines, exited. cbn [stdout given str].
  destruct (stdoutOf pre) as [|c out] eqn:Eo; [contradiction|].
  cbn [nonEmpty]. rewrite (trim_spaces _ Hsp).
  eexists. reflexivity.
Qed.

End Answers.

(** ** The tool list, the classifier and the search lists *)

Section ToolList.
Variable w : World.

(** X17.  Every tool that [listToolsHandler] announces is served by
    [callToolHandler] under its name, the names are distinct, every
    required argument is declared among the properties of its schema,
    and a call that leaves a required argument out is answered with the
    missing-argument error segment while nothing is run. *)
Theorem listed_tools_are_served (tool : Tool) (args : Args) (s : Sys) :
  In tool listToolsHandler ->
  In (tool_name tool) knownTools
  /\ NoDup (map tool_name listToolsHandler)
  /\ forall key,
      In key (required (inputSchema tool)) ->
      In key (map prop_name (properties (inputSchema tool)))
      /\ (argNamed key args = None ->
          exists m,
            callToolHandler w {| name := tool_name tool; arguments := Some args |} s
            = (Ok (errorResponse m), s, [])
            /\ startsWith m (lit "Missing " ++ key) = true).
Proof.
  intros Hin. split; [|split].
  - destruct Hin as [<-|[<-|[<-|[]]]]; vm_compute; tauto.
  - vm_compute. repeat constructor; cbn; intros H;
      repeat (destruct H as [H|H]; [discriminate H|]); exact H.
  - intros key Hk.
    destruct Hin as [<-|[<-|[<-|[]]]]; destruct Hk as [<-|[]].
    + split; [vm_compute; tauto|]. intros Ha.
      eexists. split.
      * apply missing_code_node; [now left|].
        change (argNamed (lit "code") args) with (arg_code args) in Ha.
        cbn [argsOf arguments]. now rewrite Ha.
      * reflexivity.
    + split; [vm_compute; tauto|]. intros Ha.
      eexists. split.
      * apply missing_code_deno; [now left|].
        change (argNamed (lit "code") args) with (arg_code args) in Ha.
        cbn [argsOf arguments]. now rewrite Ha.
      * reflexivity.
    + split; [vm_compute; tauto|]. intros Ha.
      eexists. split.
      * apply missing_query; [now left|].
        change (argNamed (lit "query") args) with (arg_query args) in Ha.
        cbn [argsOf arguments]. now rewrite Ha.
      * reflexivity.
Qed.

End ToolList.

Section ClassifierFacts.

Lemma occursIn_embedded m a p q : occursIn m a -> occursIn m (p ++ a ++ q).
Proof.
  intros (before & after & ->).
  exists (p ++ before), (after ++ q). now rewrite <- !app_assoc.
Qed.

(** X18.  Text around commonjs code never turns it into a module: if
    a text is classified commonjs, so is every text that contains it. *)
Theorem commonjs_survives_embedding (before code after : jsstring) :
  isCjs code = true -> isCjs (before ++ code ++ after) = true.
Proof.
  rewrite !isCjs_hasMarker. unfold hasMarker.
  intros [H|[H|[H|[H|H]]]]; auto 6 using occursIn_embedded.
Qed.

End ClassifierFacts.

Section SearchLists.
Variable w : World.

Lemma split_length sep s : List.length (split sep s) = S (commasOf sep s).
Proof.
  induction s as [|c s IH]; [reflexivity|].
  cbn [split commasOf]. destruct (N.eqb c sep).
  - cbn [List.length]. now rewrite IH.
  - destruct (split sep s) as [|x xs]; [discriminate IH | exact IH].
Qed.

(** X19.  [syncIndex] is never handed an empty list of folders,
    extensions or ignore patterns; a list that was sent has one item
    more than it has commas, so that empty items between commas are kept
    and not dropped. *)
Theorem search_lists_never_empty (folders extensions ignores : option jsstring) :
  searchFoldersOf w folders <> []
  /\ searchExtsOf extensions <> []
  /\ searchIgnoresOf ignores <> []
  /\ (given folders = true ->
      List.length (searchFoldersOf w folders) = S (commas (str folders)))
  /\ (given extensions = true ->
      List.length (searchExtsOf extensions) = S (commas (str extensions)))
  /\ (given ignores = true ->
      List.length (searchIgnoresOf ignores) = S (commas (str ignores))).
Proof.
  assert (L : forall X (f : jsstring -> X) o,
             List.length (map f (split comma (str o))) = S (commas (str o))).
  { intros X f o. rewrite length_map. apply split_length. }
  assert (N : forall X (l : list X) n, List.length l = S n -> l <> []).
  { intros X l n H ->. discriminate H. }
  unfold searchFoldersOf, searchExtsOf, searchIgnoresOf.
  repeat split.
  - destruct (given folders); [eapply N, L | discriminate].
  - destruct (given extensions); [eapply N, L | discriminate].
  - destruct (given ignores); [eapply N, L | discriminate].
  - intros ->. apply L.
  - intros ->. apply L.
  - intros ->. apply L.
Qed.

End SearchLists.

(** ** Runs of the properties above *)

(** A child that writes, closes with code 3 and goes on emitting. *)
Lemma deno_result_is_verdict_witness :
  result_of (executeDenoCode (worldOf (Spawned chatty)) (lit "Deno.exit(3)") 1000 freshSys)
  = Ok (exited (ExitNum 3) (lit "ab") (lit "warn") 2).
Proof.
  exact (@deno_result_is_verdict (worldOf (Spawned chatty)) (lit "Deno.exit(3)")
                                 1000 freshSys chatty eq_refl).
Defined.

Lemma module_result_is_verdict_witness :
  result_of (executeCode (worldOf (Spawned missingBinary)) (lit "1 + 1") 1000 freshSys)
  = Ok (failed (lit "spawn deno ENOENT") (Some 2%Z)).
Proof.
  exact (@module_result_is_verdict (worldOf (Spawned missingBinary)) (lit "1 + 1")
                                   1000 freshSys missingBinary eq_refl eq_refl).
Defined.

Lemma commonjs_result_is_verdict_witness :
  result_of (executeCode (worldOf (Spawned chatty)) (lit "exports.a = 1") 1000 freshSys)
  = Ok (exited (ExitNum 3) (lit "ab") (lit "warn") 7).
Proof.
  refine (proj1 (@commonjs_result_is_verdict (worldOf (Spawned chatty))
                   (lit "exports.a = 1") 1000 freshSys chatty _ _ _)).
  - vm_compute. reflexivity.
  - split; intros; reflexivity.
  - intros k command args opts. reflexivity.
Defined.

Lemma silent_child_request_hangs_witness :
  result_of (callToolHandler (worldOf (Spawned [StdoutData (lit "tick")]))
                             (callOf "executedeno" "for(;;){}") freshSys)
  = Pending.
Proof.
  apply (@silent_child_request_hangs (worldOf (Spawned [StdoutData (lit "tick")]))
           (callOf "executedeno" "for(;;){}") freshSys [StdoutData (lit "tick")]).
  - vm_compute. tauto.
  - vm_compute. reflexivity.
  - split; intros; reflexivity.
  - intros k command args opts. reflexivity.
  - reflexivity.
Defined.

Lemma spawn_throw_leaves_temp_file_witness :
  result_of (callToolHandler (worldOf (SpawnThrows (lit "ERR_OUT_OF_RANGE")))
                             (callOf "execute" "module.exports = 1") freshSys)
  = Ok (errorResponse (lit "ERR_OUT_OF_RANGE")).
Proof.
  refine (proj1 (@spawn_throw_leaves_temp_file
                   (worldOf (SpawnThrows (lit "ERR_OUT_OF_RANGE")))
                   (callOf "execute" "module.exports = 1") freshSys
                   (lit "ERR_OUT_OF_RANGE") _ _ _ _)).
  - vm_compute. tauto.
  - vm_compute. reflexivity.
  - split; intros; reflexivity.
  - intros k command args opts. reflexivity.
Defined.

Lemma tools_keep_apart_witness :
  (In (lit "searchcode") (nodeTools ++ denoTools)
   /\ processEffect (QueryIndex (lit "parse config") 8))
  \/ (In (lit "searchcode") searchTools
      /\ indexerEffect (QueryIndex (lit "parse config") 8)).
Proof.
  apply (@tools_keep_apart (worldOf (Spawned [])) (searchOf "searchcode" "parse config")
                           freshSys (QueryIndex (lit "parse config") 8)).
  vm_compute. tauto.
Defined.

Lemma spawns_use_server_directory_witness :
  (lit "deno" = lit "node" \/ lit "deno" = lit "deno")
  /\ lit "/srv" = lit "/srv"
  /\ 120000%Z = 120000%Z.
Proof.
  apply (@spawns_use_server_directory (worldOf (Spawned chatty))
           (callOf "executedeno" "1") freshSys (lit "deno")
           [lit "run"; lit "--allow-all"; lit "-"]
           {| opt_cwd := lit "/srv"; opt_timeout := 120000 |}).
  vm_compute. tauto.
Defined.

Lemma failed_search_is_one_segment_witness :
  result_of (callToolHandler
               (searchWorld None (Some (lit "index is locked")) (inl []))
               (searchOf "searchcode" "parse config") freshSys)
  = Ok (errorResponse (lit "index is locked")).
Proof.
  refine (proj1 (proj2 (@failed_search_is_one_segment
                          (searchWorld None (Some (lit "index is locked")) (inl []))
                          (searchOf "searchcode" "parse config") freshSys
                          (lit "index is locked") _ _)) _ _).
  - vm_compute. tauto.
  - vm_compute. reflexivity.
  - intros t. reflexivity.
  - intros t folders exts ignores. reflexivity.
Defined.

Lemma search_answer_layout_witness :
  exists content,
    result_of (callToolHandler
                 (searchWorld None None (inl [plainHit "a.js"; plainHit "b.js"]))
                 (searchOf "searchcode" "parse config") freshSys)
    = Ok {| content := content |}
    /\ List.length content = 5%nat.
Proof.
  destruct (@search_answer_layout
              (searchWorld None None (inl [plainHit "a.js"; plainHit "b.js"]))
              (searchOf "searchcode" "parse config") freshSys
              [plainHit "a.js"; plainHit "b.js"])
    as (header & ms & E & L).
  - vm_compute. tauto.
  - vm_compute. reflexivity.
  - split; intros; reflexivity.
  - intros t q k. reflexivity.
  - eexists. split; [exact E|]. exact (L _ E).
Defined.

Lemma indexer_imported_once_witness :
  ~ In ImportIndexer
       (snd (serveRequests (searchWorld (Some (lit "cannot import")) None (inl []))
                           [searchOf "searchcode" "a"; callOf "execute" "1";
                            searchOf "searchcode" "b"; callOf "nope" "1"]
                           warmSys)).
Proof.
  apply (@indexer_imported_once
           (searchWorld (Some (lit "cannot import")) None (inl []))
           [searchOf "searchcode" "a"; callOf "execute" "1";
            searchOf "searchcode" "b"; callOf "nope" "1"] warmSys).
  reflexivity.
Defined.

Lemma cold_search_imports_once_witness :
  vectorIndexer
    (stateOf (callToolHandler (searchWorld (Some (lit "cannot import")) None (inl []))
                              (searchOf "searchcode" "a") freshSys)) = true
  <-> Some (lit "cannot import") = None.
Proof.
  refine (proj2 (@cold_search_imports_once
                   (searchWorld (Some (lit "cannot import")) None (inl []))
                   (searchOf "searchcode" "a") freshSys _ _ _)).
  - vm_compute. tauto.
  - vm_compute. reflexivity.
  - reflexivity.
Defined.

Lemma spawn_error_answer_witness :
  exists ms,
    result_of (callToolHandler (worldOf (Spawned missingBinary))
                               (callOf "executedeno" "1") freshSys)
    = Ok {| content := [Text (lit "ERROR: spawn deno ENOENT");
                        summaryOf (lit "Deno execution completed in ") ms (lit "0")] |}.
Proof.
  apply (@spawn_error_answer (worldOf (Spawned missingBinary))
           (callOf "executedeno" "1") freshSys
           [StdoutData (lit "lost")] [Close (ExitNum (-2))] (lit "spawn deno ENOENT")).
  - vm_compute. tauto.
  - vm_compute. reflexivity.
  - split; intros; reflexivity.
  - intros k command args opts. reflexivity.
  - reflexivity.
  - discriminate.
Defined.

Lemma killed_child_reads_as_exit_zero_witness :
  exists ms,
    result_of (callToolHandler (worldOf (Spawned [Close ExitNull]))
                               (callOf "executenodejs" "for(;;){}") freshSys)
    = Ok {| content := [summaryOf (lit "Execution completed in ") ms (lit "0")] |}.
Proof.
  destruct (@killed_child_reads_as_exit_zero (worldOf (Spawned [Close ExitNull]))
              (callOf "executenodejs" "for(;;){}") freshSys [] [])
    as (ms & E & _).
  - vm_compute. tauto.
  - vm_compute. reflexivity.
  - split; intros; reflexivity.
  - intros k command args opts. reflexivity.
  - reflexivity.
  - exists ms. exact E.
Defined.

Lemma blank_output_gives_empty_segment_witness :
  exists rest,
    result_of (callToolHandler
                 (worldOf (Spawned [StdoutData [10%N]; Close (ExitNum 0)]))
                 (callOf "executenodejs" "console.log()") freshSys)
    = Ok {| content := Text [] :: rest |}.
Proof.
  apply (@blank_output_gives_empty_segment
           (worldOf (Spawned [StdoutData [10%N]; Close (ExitNum 0)]))
           (callOf "executenodejs" "console.log()") freshSys
           [StdoutData [10%N]] [] (ExitNum 0)).
  - vm_compute. tauto.
  - vm_compute. reflexivity.
  - split; intros; reflexivity.
  - intros k command args opts. reflexivity.
  - reflexivity.
  - discriminate.
  - reflexivity.
Defined.

Lemma listed_tools_are_served_witness :
  In (lit "searchcode") knownTools.
Proof.
  exact (proj1 (@listed_tools_are_served (worldOf (Spawned [])) searchcodeTool
                  noArgs freshSys (or_intror (or_intror (or_introl eq_refl))))).
Defined.

Lemma commonjs_survives_embedding_witness :
  isCjs (lit "(function () { " ++ lit "return require('fs')" ++ lit " })()") = true.
Proof.
  apply (@commonjs_survives_embedding (lit "(function () { ")
           (lit "return require('fs')") (lit " })()")).
  vm_compute. reflexivity.
Defined.

(** ** The temp file when the spawn throws *)

Section LeftBehind.
Variable w : World.

Lemma cjsFrom_spawn_throws st code timeout s pre e :
  writable w ->
  (forall k command args,
      child_spawn w k command args (spawnOptions w timeout) = SpawnThrows e) ->
  finish pre (cjsFrom w st code timeout s)
  = (Throw e, step (step (step (step s))),
     pre ++ [WriteFileSync (tempFileAt w (tick s)) code;
             Spawn (lit "node") [tempFileAt w (tick s)] (spawnOptions w timeout)]).
Proof.
  intros [_ Hw] Hs.
  pose proof (cjsFrom_shape w st code timeout s) as H. cbv zeta in H.
  rewrite Hw, Hs in H. rewrite H. reflexivity.
Qed.

(** C4 at its failing path.  When [executeCode] takes the temp-file
    strategy and [spawn] throws at once, the code has been written to
    the temp file, the promise is rejected with the error of the spawn,
    and no deletion of the temp file is attempted: neither listener
    exists and the [catch] of [executeCode] is not reached. *)
Theorem temp_file_left_when_spawn_throws (code : jsstring) (timeout : Z) (s : Sys)
        (e : jsstring) :
  isCjs code = true ->
  writable w ->
  (forall k command args,
      child_spawn w k command args (spawnOptions w timeout) = SpawnThrows e) ->
  let run := executeCode w code timeout s in
  result_of run = Throw e
  /\ (exists file,
         tempFilesOf (effects_of run) = [file]
         /\ In (WriteFileSync file code) (effects_of run)
         /\ In (Spawn (lit "node") [file] (spawnOptions w timeout)) (effects_of run))
  /\ (forall file, ~ In (UnlinkSync file) (effects_of run)).
Proof.
  intros Hcjs Hw Hs run. subst run.
  rewrite (executeCode_commonjs_unfold w code timeout s Hcjs). cbv zeta.
  assert (Hshape : forall pre s',
             pre = [] \/ pre = [MkdirSync (path_join w (workingDir w) (lit "temp"))] ->
             let x := finish pre (cjsFrom w (date_now w (tick s)) code timeout s') in
             result_of x = Throw e
             /\ (exists file,
                    tempFilesOf (effects_of x) = [file]
                    /\ In (WriteFileSync file code) (effects_of x)
                    /\ In (Spawn (lit "node") [file] (spawnOptions w timeout))
                          (effects_of x))
             /\ (forall file, ~ In (UnlinkSync file) (effects_of x))).
  { intros pre s' Hpre x. subst x.
    rewrite (@cjsFrom_spawn_throws (date_now w (tick s)) code timeout s' pre e Hw Hs).
    cbn [result_of effects_of fst snd].
    split; [reflexivity|]. split.
    - exists (tempFileAt w (tick s')). split; [|split].
      + destruct Hpre as [->| ->]; reflexivity.
      + apply in_or_app. right. now left.
      + apply in_or_app. right. right. now left.
    - intros file Hin. apply in_app_or in Hin as [Hin|Hin].
      + destruct Hpre as [->| ->]; [destruct Hin|].
        destruct Hin as [Hin|[]]. discriminate Hin.
      + destruct Hin as [Hin|[Hin|[]]]; discriminate Hin. }
  destruct (fs_existsSync w (S (tick s)) (path_join w (workingDir w) (lit "temp"))).
  - apply Hshape. now left.
  - rewrite (proj1 Hw). apply Hshape. now right.
Qed.

End LeftBehind.

(** A commonjs request with the timeout -1, which [spawn] refuses. *)
Lemma temp_file_left_when_spawn_throws_witness :
  result_of (executeCode validatingWorld (lit "module.exports = 1;") (-1) freshSys)
  = Throw (lit "ERR_OUT_OF_RANGE: timeout must be an unsigned integer")
  /\ effects_of (executeCode validatingWorld (lit "module.exports = 1;") (-1) freshSys)
     = [WriteFileSync (lit "/srv/temp/node-exec-1700000000002-k3j9.cjs")
                      (lit "module.exports = 1;");
        Spawn (lit "node") [lit "/srv/temp/node-exec-1700000000002-k3j9.cjs"]
              {| opt_cwd := lit "/srv"; opt_timeout := -1 |}].
Proof.
  split.
  - refine (proj1 (@temp_file_left_when_spawn_throws validatingWorld
                     (lit "module.exports = 1;") (-1) freshSys
                     (lit "ERR_OUT_OF_RANGE: timeout must be an unsigned integer")
                     _ _ _)).
    + vm_compute. reflexivity.
    + split; intros; reflexivity.
    + intros k command args. reflexivity.
  - vm_compute. reflexivity.
Defined.

(** What the caller of the tool reads then. *)
Example spawn_throw_rendered :
  callToolHandler validatingWorld
    {| name := lit "executenodejs";
       arguments := Some {| arg_code := Some (lit "module.exports = 1;");
                            arg_timeout := Some (-1)%Z; arg_query := None;
                            arg_folders := None; arg_extensions := None;
                            arg_ignores := None; arg_topK := None |} |}
    freshSys
  = (Ok (errorResponse (lit "ERR_OUT_OF_RANGE: timeout must be an unsigned integer")),
     {| tick := 6; vectorIndexer := false |},
     [WriteFileSync (lit "/srv/temp/node-exec-1700000000002-k3j9.cjs")
                    (lit "module.exports = 1;");
      Spawn (lit "node") [lit "/srv/temp/node-exec-1700000000002-k3j9.cjs"]
            {| opt_cwd := lit "/srv"; opt_timeout := -1 |}]).
Proof. vm_compute. reflexivity. Qed.
